(** * FalkorDB CSV loader: a shallow embedding of [falkordb_csv_loader.py]

    The loader reads node, edge, index and constraint CSV files from a
    directory and turns them into queries against a graph store.  The
    embedding follows the methods of [FalkorDBCSVLoader] one by one.

    Conventions.
    - Text is modelled by [string]; cell text is taken to be ASCII, so
      Python's [str.isdigit] is "non-empty and every character in 0..9"
      and [upper], [strip] act on ASCII letters and blanks.  On text with
      other decimal digits or superscripts the code can behave
      differently ([int] may raise where [isdigit] holds).
    - [int] reads digit runs of any length; CPython refuses more than
      4300 digits by default.  A float is kept as the decimal literal it
      was read from, without rounding or overflow.
    - A row maps field names to text, as the reader yields it for a row
      as long as the header; the [None] cells of short rows and the extra
      cells of long rows are not modelled.  Statements that a method
      returns are to be read within these bounds; the theorems say so
      where it matters.
    - [print] calls, timing and the counters that only feed them
      ([created_count], [skipped_count], [total_loaded]) are left out.
    - The graph store and the file system are collaborators: the store is
      an arbitrary oracle deciding which requests fail, the file system an
      arbitrary record of directory listings and parsed files.
    - Python exceptions are explicit: every method runs in a state monad
      whose result is either a value or a raised exception. *)

From Stdlib Require Import String Ascii List ZArith NArith Bool Arith Lia.
From Stdlib Require Import DecimalString Sorted.
Import ListNotations.
Open Scope string_scope.
Open Scope list_scope.
Open Scope nat_scope.

(** ** Python string primitives *)

Module PyStr.

Definition is_digit (c : ascii) : bool :=
  let n := nat_of_ascii c in (48 <=? n) && (n <=? 57).

(** [str.isdigit()] on ASCII text. *)
Fixpoint all_digits (s : string) : bool :=
  match s with
  | EmptyString => true
  | String c s' => is_digit c && all_digits s'
  end.

Definition isdigit (s : string) : bool :=
  match s with
  | EmptyString => false
  | _ => all_digits s
  end.

(** Truth value of a string: non-empty. *)
Definition truthy (s : string) : bool :=
  match s with
  | EmptyString => false
  | _ => true
  end.

(** ASCII characters for which [str.isspace()] holds. *)
Definition is_space (c : ascii) : bool :=
  let n := nat_of_ascii c in
  ((9 <=? n) && (n <=? 13)) || ((28 <=? n) && (n <=? 32)).

Fixpoint lstrip (s : string) : string :=
  match s with
  | EmptyString => EmptyString
  | String c s' => if is_space c then lstrip s' else s
  end.

(** [rstrip]: a character is kept when something non-blank follows it
    or it is not blank itself. *)
Fixpoint rstrip (s : string) : string :=
  match s with
  | EmptyString => EmptyString
  | String c s' =>
      match rstrip s' with
      | EmptyString => if is_space c then EmptyString else String c EmptyString
      | r => String c r
      end
  end.

(** [s.strip()] *)
Definition strip (s : string) : string := rstrip (lstrip s).

(** [s.lstrip(c)] for a one-character argument. *)
Fixpoint lstrip_char (c : ascii) (s : string) : string :=
  match s with
  | EmptyString => EmptyString
  | String d s' => if Ascii.eqb d c then lstrip_char c s' else s
  end.

(** [s.replace(old, new)] and [s.replace(old, new, count)] for a
    non-empty [old]; [count = None] is "no limit".  [skip] counts the
    characters of a match that are still to be dropped. *)
Fixpoint replace_go (old new : string) (count : option nat) (skip : nat)
         (s : string) : string :=
  match s with
  | EmptyString => EmptyString
  | String c s' =>
      match skip with
      | S k => replace_go old new count k s'
      | O =>
          let allowed := match count with Some O => false | _ => true end in
          if allowed && prefix old s then
            String.append new
              (replace_go old new
                 (match count with Some n => Some (pred n) | None => None end)
                 (pred (String.length old)) s')
          else String c (replace_go old new count 0 s')
      end
  end.

Definition replace (old new : string) (s : string) : string :=
  replace_go old new None 0 s.

Definition replace_n (old new : string) (count : nat) (s : string) : string :=
  replace_go old new (Some count) 0 s.

(** [s.split(sep)] for a one-character separator; never empty. *)
Fixpoint split (sep : ascii) (s : string) : list string :=
  match s with
  | EmptyString => [EmptyString]
  | String c s' =>
      if Ascii.eqb c sep then EmptyString :: split sep s'
      else match split sep s' with
           | h :: t => String c h :: t
           | [] => [String c EmptyString]
           end
  end.

Definition upper_char (c : ascii) : ascii :=
  let n := nat_of_ascii c in
  if (97 <=? n) && (n <=? 122) then ascii_of_nat (n - 32) else c.

Definition lower_char (c : ascii) : ascii :=
  let n := nat_of_ascii c in
  if (65 <=? n) && (n <=? 90) then ascii_of_nat (n + 32) else c.

Fixpoint map_chars (f : ascii -> ascii) (s : string) : string :=
  match s with
  | EmptyString => EmptyString
  | String c s' => String (f c) (map_chars f s')
  end.

Definition upper : string -> string := map_chars upper_char.
Definition lower : string -> string := map_chars lower_char.

Definition startswith (p s : string) : bool := prefix p s.

Fixpoint rev_onto (s acc : string) : string :=
  match s with
  | EmptyString => acc
  | String c s' => rev_onto s' (String c acc)
  end.

Definition endswith (p s : string) : bool :=
  prefix (rev_onto p EmptyString) (rev_onto s EmptyString).

(** [sub in s] *)
Fixpoint contains (sub s : string) : bool :=
  prefix sub s ||
  match s with
  | EmptyString => false
  | String _ s' => contains sub s'
  end.

(** [sep.join(parts)] *)
Definition join (sep : string) (parts : list string) : string :=
  String.concat sep parts.

(** [str(n)] for a non-negative integer such as a [len]. *)
Definition str_of_nat (n : nat) : string :=
  NilEmpty.string_of_uint (Nat.to_uint n).

Definition digit_value (c : ascii) : N := N.of_nat (nat_of_ascii c - 48).

(** Value of a run of decimal digits. *)
Fixpoint digits_value (acc : N) (s : string) : N :=
  match s with
  | EmptyString => acc
  | String c s' => digits_value (acc * 10 + digit_value c)%N s'
  end.

(** The numeric literals of [int()] and [float()] are built from runs
    [digit (["_"] digit)*]: [digitpart s] reads the longest such run at
    the head of [s] and returns its digits and the unread rest. *)
Fixpoint digitpart (s : string) : string * string :=
  match s with
  | EmptyString => (EmptyString, EmptyString)
  | String c s' =>
      if is_digit c then
        match s' with
        | EmptyString => (String c EmptyString, EmptyString)
        | String u t =>
            if Ascii.eqb u "_" then
              match t with
              | String d _ =>
                  if is_digit d
                  then let (ds, r) := digitpart t in (String c ds, r)
                  else (String c EmptyString, s')
              | EmptyString => (String c EmptyString, s')
              end
            else let (ds, r) := digitpart s' in (String c ds, r)
        end
      else (EmptyString, s)
  end.

(** Optional sign at the head of a literal: [(negative, rest)]. *)
Definition sign (s : string) : bool * string :=
  match s with
  | String "-" r => (true, r)
  | String "+" r => (false, r)
  | _ => (false, s)
  end.

(** [int(s)] in base ten; [None] stands for [ValueError]. *)
Definition py_int (s : string) : option Z :=
  let (neg, u) := sign (strip s) in
  match digitpart u with
  | (EmptyString, _) => None
  | (ds, EmptyString) =>
      let v := Z.of_N (digits_value 0 ds) in
      Some (if neg then (- v)%Z else v)
  | _ => None
  end.

End PyStr.

(** ** Values *)

(** A Python float as the decimal number its literal denotes,
    [(-1)^neg * mantissa * 10^exp10]; rounding to binary64 is not
    modelled. *)
Inductive PyFloat : Type :=
| FFinite (neg : bool) (mantissa : N) (exp10 : Z)
| FInf (neg : bool)
| FNan.

(** The scalars the loader stores in property dictionaries. *)
Inductive PyValue : Type :=
| PyInt (z : Z)
| PyFloatV (f : PyFloat)
| PyString (s : string)
| PyNone.

(** [float(s)]; [None] stands for [ValueError]. *)
Definition py_float (s : string) : option PyFloat :=
  let (neg, u) := PyStr.sign (PyStr.strip s) in
  let l := PyStr.lower u in
  if String.eqb l "inf" || String.eqb l "infinity" then Some (FInf neg)
  else if String.eqb l "nan" then Some FNan
  else
    let (ip, r1) := PyStr.digitpart u in
    let '(fp, r2) :=
      match r1 with
      | String "." r => PyStr.digitpart r
      | _ => (EmptyString, r1)
      end in
    if negb (PyStr.truthy ip) && negb (PyStr.truthy fp) then None
    else
      let mant := PyStr.digits_value 0 (String.append ip fp) in
      let scale := Z.of_nat (String.length fp) in
      match r2 with
      | EmptyString => Some (FFinite neg mant (- scale))
      | String e r3 =>
          if Ascii.eqb e "e" || Ascii.eqb e "E" then
            let (eneg, r4) := PyStr.sign r3 in
            match PyStr.digitpart r4 with
            | (EmptyString, _) => None
            | (ed, EmptyString) =>
                let ev := Z.of_N (PyStr.digits_value 0 ed) in
                Some (FFinite neg mant ((if eneg then - ev else ev) - scale))
            | _ => None
            end
          else None
      end.

(** ** Exceptions *)

Inductive Exn : Type :=
| ValueError      (* [int()], [float()], [range()] with a zero step *)
| AttributeError  (* a method call on [None] *)
| OSError         (* a failing file-system call *)
| StoreError.     (* any error reported by the graph store *)

Inductive Outcome (A : Type) : Type :=
| Ret (a : A)
| Raise (e : Exn).
Arguments Ret {A} a.
Arguments Raise {A} e.

Definition obind {A B} (o : Outcome A) (k : A -> Outcome B) : Outcome B :=
  match o with
  | Ret a => k a
  | Raise e => Raise e
  end.

Definition of_option {A} (o : option A) : Outcome A :=
  match o with
  | Some a => Ret a
  | None => Raise ValueError
  end.

(** ** Rows and property dictionaries *)

(** One CSV row as [csv.DictReader] yields it: field name to raw text, in
    header order.  A well-formed row has pairwise distinct field names. *)
Definition Row : Type := list (string * string).

(** [row.get(key, default)] *)
Fixpoint row_get (row : Row) (key default : string) : string :=
  match row with
  | [] => default
  | (k, v) :: rest => if String.eqb k key then v else row_get rest key default
  end.

(** [key in keys] *)
Definition key_in (key : string) (keys : list string) : bool :=
  existsb (String.eqb key) keys.

Definition Props : Type := list (string * PyValue).

(** [properties[k] = v] on an insertion-ordered dictionary. *)
Fixpoint dict_set (k : string) (v : PyValue) (d : Props) : Props :=
  match d with
  | [] => [(k, v)]
  | (k', v') :: d' =>
      if String.eqb k' k then (k, v) :: d' else (k', v') :: dict_set k v d'
  end.

(** ** Value typing *)

(** The conversion chain of [load_nodes_batch] (lines 308-313 and again
    356-361), applied to a non-empty cell. *)
Definition node_convert (value : string) : Outcome PyValue :=
  if PyStr.isdigit value then
    obind (of_option (PyStr.py_int value)) (fun z => Ret (PyInt z))
  else if PyStr.isdigit
            (PyStr.lstrip_char "-" (PyStr.replace_n "." "" 1 value)) then
    obind (of_option (py_float value)) (fun f => Ret (PyFloatV f))
  else Ret (PyString value).

(** Lines 306-315: the typed value of a node cell, [None] for an empty
    one. *)
Definition node_typed_value (value : string) : Outcome PyValue :=
  if PyStr.truthy value then node_convert value else Ret PyNone.

(** The conversion chain of [load_edges_batch] (lines 446-451 and again
    531-536), applied to a non-empty cell. *)
Definition edge_convert (value : string) : Outcome PyValue :=
  if PyStr.isdigit value then
    obind (of_option (PyStr.py_int value)) (fun z => Ret (PyInt z))
  else if PyStr.isdigit (PyStr.replace_n "." "" 1 value) then
    obind (of_option (py_float value)) (fun f => Ret (PyFloatV f))
  else Ret (PyString value).

(** The edge loaders only convert non-empty cells; an empty one carries
    no value. *)
Definition edge_typed_value (value : string) : Outcome PyValue :=
  if PyStr.truthy value then edge_convert value else Ret PyNone.

(** ** Identifiers and labels *)

(** Label of a node file (lines 82-84 and 277-279). *)
Definition node_label_of (filename : string) : string :=
  let raw_label := PyStr.replace ".csv" "" (PyStr.replace "nodes_" "" filename) in
  PyStr.replace ":" "_" raw_label.

(** Relationship type of an edge file (line 407). *)
Definition rel_type_of (filename : string) : string :=
  PyStr.replace ".csv" "" (PyStr.replace "edges_" "" filename).

(** Identifier as query text: bare when numeric, quoted otherwise. *)
Definition id_text (id : string) : string :=
  if PyStr.isdigit id then id else String.append "'" (String.append id "'").

(** Identifier as a bound value: [int(id) if id.isdigit() else id]. *)
Definition id_value (id : string) : Outcome PyValue :=
  if PyStr.isdigit id then
    obind (of_option (PyStr.py_int id)) (fun z => Ret (PyInt z))
  else Ret (PyString id).

(** [parts[0]] of a [split]. *)
Definition first_segment (sep : ascii) (s : string) : string :=
  match PyStr.split sep s with
  | h :: _ => h
  | [] => EmptyString
  end.

(** Lines 439-443: a key of the form [X:X] collapses to [X]. *)
Definition clean_key (key : string) : string :=
  if PyStr.contains ":" key then
    match PyStr.split ":" key with
    | [a; b] => if String.eqb a b then a else key
    | _ => key
    end
  else key.

(** [os.path.join(a, b)] on POSIX paths. *)
Definition path_join (a b : string) : string :=
  if PyStr.startswith "/" b then b
  else if negb (PyStr.truthy a) || PyStr.endswith "/" a then String.append a b
  else String.append a (String.append "/" b).

(** [os.path.basename(p)] on POSIX paths. *)
Definition basename (p : string) : string :=
  last (PyStr.split "/" p) EmptyString.

(** ** Requests to the graph store *)

(** One element of the [$batch] parameter of a node bulk write. *)
Record NodeRecord : Type := {
  nr_id : PyValue;
  nr_props : Props
}.

(** One element of the [$batch] parameter of an edge bulk write. *)
Record EdgeRecord : Type := {
  er_source_id : PyValue;
  er_target_id : PyValue;
  er_source_label : string;
  er_target_label : string;
  er_props : Props
}.

Inductive Params : Type :=
| NoParams
| NodeBatch (batch : list NodeRecord)
| EdgeBatch (batch : list EdgeRecord).

(** [GraphQuery g q p] is [graph.query(q, p)] on the handle selected for
    graph [g]; [ExecCommand args] is [db.execute_command( *args)]. *)
Inductive Request : Type :=
| GraphQuery (target : string) (query : string) (params : Params)
| ExecCommand (args : list string).

(** The call site a request comes from. *)
Inductive Origin : Type :=
| IdIndex           (* create_id_indexes_for_all_labels *)
| DescriptorIndex   (* create_indexes_from_csv *)
| SupportingIndex   (* create_supporting_indexes_for_constraints *)
| ConstraintCreate  (* create_constraints_from_csv *)
| NodeBulk          (* load_nodes_batch, UNWIND query *)
| NodeRow           (* load_nodes_batch, fallback query *)
| EdgeBulk          (* load_edges_batch, UNWIND query *)
| EdgeRow.          (* load_edges_batch, fallback query *)

Record Event : Type := {
  ev_origin : Origin;
  ev_request : Request
}.

(** The graph a request is addressed to.  A [GRAPH.*] command names its
    graph key as its third word. *)
Definition request_target (rq : Request) : option string :=
  match rq with
  | GraphQuery g _ _ => Some g
  | ExecCommand args => nth_error args 2
  end.

(** ** Loader state and the method monad *)

(** The fields of [FalkorDBCSVLoader]; [graph] is the selected graph
    handle, named by its graph, or [None]. *)
Record Loader : Type := {
  graph_name : string;
  csv_dir : string;
  merge_mode : bool;
  multi_graph_mode : bool;
  graph : option string
}.

(** [__init__] after a successful connection (lines 32-48). *)
Definition init_loader (name dir : string) (merge multi : bool) : Loader :=
  {| graph_name := name; csv_dir := dir; merge_mode := merge;
     multi_graph_mode := multi;
     graph := if negb multi then Some name else None |}.

Record State : Type := {
  self : Loader;
  issued : list Event   (* every request sent to the store, oldest first *)
}.

Definition M (A : Type) : Type := State -> Outcome A * State.

Definition ret {A} (a : A) : M A := fun st => (Ret a, st).

Definition raise {A} (e : Exn) : M A := fun st => (Raise e, st).

Definition bind {A B} (m : M A) (k : A -> M B) : M B :=
  fun st =>
    match m st with
    | (Ret a, st') => k a st'
    | (Raise e, st') => (Raise e, st')
    end.

Notation "x <- m ;; k" := (bind m (fun x => k))
  (at level 61, m at next level, right associativity).
Notation "m ;;; k" := (bind m (fun _ => k))
  (at level 61, right associativity).

Definition lift {A} (o : Outcome A) : M A := fun st => (o, st).

Definition get_self : M Loader := fun st => (Ret (self st), st).

Definition set_csv_dir (dir : string) : M unit :=
  fun st =>
    let l := self st in
    (Ret tt,
     {| self := {| graph_name := graph_name l; csv_dir := dir;
                   merge_mode := merge_mode l;
                   multi_graph_mode := multi_graph_mode l;
                   graph := graph l |};
        issued := issued st |}).

(** [self.graph = self.db.select_graph(name)] *)
Definition select_graph (name : string) : M unit :=
  fun st =>
    let l := self st in
    (Ret tt,
     {| self := {| graph_name := graph_name l; csv_dir := csv_dir l;
                   merge_mode := merge_mode l;
                   multi_graph_mode := multi_graph_mode l;
                   graph := Some name |};
        issued := issued st |}).

(** [try: body  except Exception: handler] *)
Definition try_except {A} (body : M A) (handler : Exn -> M A) : M A :=
  fun st =>
    match body st with
    | (Ret a, st') => (Ret a, st')
    | (Raise e, st') => handler e st'
    end.

(** [try: body  finally: fin] *)
Definition try_finally {A} (body : M A) (fin : M unit) : M A :=
  fun st =>
    match body st with
    | (r, st') =>
        match fin st' with
        | (Ret _, st'') => (r, st'')
        | (Raise e, st'') => (Raise e, st'')
        end
    end.

(** [for x in xs: body] *)
Fixpoint for_each {A} (xs : list A) (body : A -> M unit) : M unit :=
  match xs with
  | [] => ret tt
  | x :: xs' => body x ;;; for_each xs' body
  end.

(** The handlers of the loader only print: [except Exception: pass]. *)
Definition swallow (m : M unit) : M unit := try_except m (fun _ => ret tt).

(** ** The file system *)

Record FileSystem : Type := {
  fs_exists : string -> bool;                  (* os.path.exists *)
  fs_isdir : string -> bool;                   (* os.path.isdir *)
  fs_listdir : string -> option (list string); (* os.listdir, None: raises *)
  fs_rows : string -> option (list Row)        (* rows of a CSV file, None: unreadable *)
}.

(** [range(0, stop, step)] for a positive [step], by its length. *)
Fixpoint range_from (count start step : nat) : list nat :=
  match count with
  | O => []
  | S c => start :: range_from c (start + step) step
  end.

Definition py_range (stop step : nat) : list nat :=
  range_from ((stop + step - 1) / step) 0 step.

(** [rows[i:i + size]] *)
Definition slice {A} (l : list A) (i size : nat) : list A :=
  firstn size (skipn i l).

(** The batches of [for i in range(0, len(rows), batch_size)]: a zero
    step raises, a negative one gives an empty range. *)
Definition batches_of (rows : list Row) (batch_size : Z) : Outcome (list (list Row)) :=
  if (batch_size =? 0)%Z then Raise ValueError
  else if (batch_size <? 0)%Z then Ret []
  else
    let size := Z.to_nat batch_size in
    Ret (map (fun i => slice rows i size) (py_range (length rows) size)).

(** [sorted(names)]: ascending by code point. *)
Fixpoint insert_sorted (x : string) (l : list string) : list string :=
  match l with
  | [] => [x]
  | y :: l' => if String.leb x y then x :: l else y :: insert_sorted x l'
  end.

Definition sorted (l : list string) : list string :=
  fold_right insert_sorted [] l.

(** [[x.strip() for x in text.split(';') if x.strip()]] *)
Definition split_list (text : string) : list string :=
  filter PyStr.truthy (map PyStr.strip (PyStr.split ";" text)).

Section Loader.

(** The store: given the requests seen so far and a new one, does the
    new one succeed?  Any behaviour of a real store is one such
    oracle. *)
Variable store : list Event -> Request -> bool.

Variable fs : FileSystem.

(** Python's [repr] on the scalars of a property dictionary. *)
Variable py_repr : PyValue -> string.

Definition record (o : Origin) (rq : Request) (st : State) : State :=
  {| self := self st;
     issued := issued st ++ [{| ev_origin := o; ev_request := rq |}] |}.

(** [self.graph.query(query, params)] *)
Definition graph_query (o : Origin) (query : string) (params : Params) : M unit :=
  fun st =>
    match graph (self st) with
    | None => (Raise AttributeError, st)
    | Some g =>
        let rq := GraphQuery g query params in
        if store (issued st) rq then (Ret tt, record o rq st)
        else (Raise StoreError, record o rq st)
    end.

(** [self.db.execute_command( *args)] *)
Definition execute_command (o : Origin) (args : list string) : M unit :=
  fun st =>
    let rq := ExecCommand args in
    if store (issued st) rq then (Ret tt, record o rq st)
    else (Raise StoreError, record o rq st).

(** [read_csv_file]: the rows, or [[]] when reading fails. *)
Definition read_csv_file (file_path : string) : M (list Row) :=
  ret (match fs_rows fs file_path with
       | Some rows => rows
       | None => []
       end).

Definition os_listdir (path : string) : M (list string) :=
  lift (match fs_listdir fs path with
        | Some names => Ret names
        | None => Raise OSError
        end).

Definition is_node_file (f : string) : bool :=
  PyStr.startswith "nodes_" f && PyStr.endswith ".csv" f.

Definition is_edge_file (f : string) : bool :=
  PyStr.startswith "edges_" f && PyStr.endswith ".csv" f.

(** *** Schema provisioning *)

Definition create_id_indexes_for_all_labels : M unit :=
  me <- get_self ;;
  if negb (fs_exists fs (csv_dir me)) then ret tt
  else
    csv_files <- os_listdir (csv_dir me) ;;
    let node_files := filter is_node_file csv_files in
    for_each node_files (fun node_file =>
      let label := node_label_of node_file in
      swallow (graph_query IdIndex
                 ("CREATE INDEX ON :" ++ label ++ "(id)")%string NoParams)).

Definition index_query (label prop : string) : string :=
  ("CREATE INDEX ON :" ++ label ++ "(" ++ prop ++ ")")%string.

(** Line 126: the rows of [indexes.csv] that are passed over. *)
Definition index_row_skipped (index : Row) : bool :=
  let labels := PyStr.strip (row_get index "labels" "") in
  let properties := PyStr.strip (row_get index "properties" "") in
  let uniqueness := row_get index "uniqueness" "NON_UNIQUE" in
  let index_type := PyStr.upper (row_get index "type" "") in
  negb (PyStr.truthy labels) || negb (PyStr.truthy properties)
  || String.eqb index_type "LOOKUP" || String.eqb uniqueness "UNIQUE".

(** Body of the loop of [create_indexes_from_csv] (lines 120-150). *)
Definition create_indexes_row (index : Row) : M unit :=
  let labels := PyStr.strip (row_get index "labels" "") in
  let properties := PyStr.strip (row_get index "properties" "") in
  if index_row_skipped index then ret tt
  else
    let label_list := split_list labels in
    let prop_list := split_list properties in
    for_each label_list (fun label =>
      for_each prop_list (fun prop =>
        swallow (graph_query DescriptorIndex (index_query label prop) NoParams))).

Definition create_indexes_from_csv : M unit :=
  me <- get_self ;;
  let indexes_file := path_join (csv_dir me) "indexes.csv" in
  if negb (fs_exists fs indexes_file) then ret tt
  else
    indexes <- read_csv_file indexes_file ;;
    for_each indexes create_indexes_row.

Definition supporting_index_query (label : string) (prop_list : list string) : string :=
  match prop_list with
  | [p] => ("CREATE INDEX FOR (n:" ++ label ++ ") ON (n." ++ p ++ ")")%string
  | _ =>
      let prop_str := PyStr.join ", " (map (fun prop => ("n." ++ prop)%string) prop_list) in
      ("CREATE INDEX FOR (n:" ++ label ++ ") ON (" ++ prop_str ++ ")")%string
  end.

(** Body of the loop of [create_supporting_indexes_for_constraints]. *)
Definition supporting_index_row (constraint : Row) : M unit :=
  let labels := PyStr.strip (row_get constraint "labels" "") in
  let properties := PyStr.strip (row_get constraint "properties" "") in
  let constraint_type := PyStr.upper (row_get constraint "type" "") in
  if negb (PyStr.truthy labels) || negb (PyStr.truthy properties)
     || negb (PyStr.contains "UNIQUE" constraint_type) then ret tt
  else
    let label_list := split_list labels in
    let prop_list := split_list properties in
    for_each label_list (fun label =>
      swallow (graph_query SupportingIndex
                 (supporting_index_query label prop_list) NoParams)).

Definition create_supporting_indexes_for_constraints : M unit :=
  me <- get_self ;;
  let constraints_file := path_join (csv_dir me) "constraints.csv" in
  if negb (fs_exists fs constraints_file) then ret tt
  else
    constraints <- read_csv_file constraints_file ;;
    match constraints with
    | [] => ret tt
    | _ => for_each constraints supporting_index_row
    end.

(** Lines 245-248: the words of the [GRAPH.CONSTRAINT CREATE] command. *)
Definition constraint_command (key entity_type label : string)
           (prop_list : list string) : list string :=
  ["GRAPH.CONSTRAINT"; "CREATE"; key; "UNIQUE"; entity_type; label;
   "PROPERTIES"; PyStr.str_of_nat (length prop_list)] ++ prop_list.

(** Body of the loop of [create_constraints_from_csv]. *)
Definition create_constraints_row (constraint : Row) : M unit :=
  let labels := PyStr.strip (row_get constraint "labels" "") in
  let properties := PyStr.strip (row_get constraint "properties" "") in
  let constraint_type := PyStr.upper (row_get constraint "type" "") in
  let entity_type := PyStr.upper (row_get constraint "entity_type" "NODE") in
  if negb (PyStr.truthy labels) || negb (PyStr.truthy properties) then ret tt
  else
    let label_list := split_list labels in
    let prop_list := split_list properties in
    for_each label_list (fun label =>
      swallow
        (if PyStr.contains "UNIQUE" constraint_type then
           me <- get_self ;;
           execute_command ConstraintCreate
             (constraint_command (graph_name me) entity_type label prop_list)
         else ret tt)).

Definition create_constraints_from_csv : M unit :=
  me <- get_self ;;
  let constraints_file := path_join (csv_dir me) "constraints.csv" in
  if negb (fs_exists fs constraints_file) then ret tt
  else
    constraints <- read_csv_file constraints_file ;;
    match constraints with
    | [] => ret tt
    | _ => for_each constraints create_constraints_row
    end.

(** *** Node translation *)

(** Lines 300-315: every field except [id] and [labels], empty cells
    as [None]. *)
Fixpoint node_properties_all (row : Row) (properties : Props) : Outcome Props :=
  match row with
  | [] => Ret properties
  | (key, value) :: rest =>
      if negb (key_in key ["id"; "labels"]) then
        obind (node_typed_value value) (fun v =>
          node_properties_all rest (dict_set key v properties))
      else node_properties_all rest properties
  end.

(** Lines 318-325: [None] entries are left out of the query text. *)
Definition node_prop_parts (properties : Props) : list string :=
  flat_map (fun kv =>
              match snd kv with
              | PyNone => []
              | v => [(fst kv ++ ": " ++ py_repr v)%string]
              end) properties.

(** Lines 299-345: the fallback query of one node row. *)
Definition node_row_query (merge : bool) (label : string) (row : Row) : Outcome string :=
  let node_id := row_get row "id" "" in
  obind (node_properties_all row []) (fun properties =>
    let prop_str := PyStr.join ", " (node_prop_parts properties) in
    let id_str := id_text node_id in
    let tail := if PyStr.truthy prop_str then (", " ++ prop_str)%string else ""%string in
    Ret ((if merge then "MERGE" else "CREATE")
         ++ " (:" ++ label ++ " {id: " ++ id_str ++ tail ++ "})")%string).

(** [query_parts] of a node batch (lines 297-345). *)
Fixpoint node_query_parts (merge : bool) (label : string) (batch : list Row)
  : Outcome (list string) :=
  match batch with
  | [] => Ret []
  | row :: rest =>
      obind (node_row_query merge label row) (fun q =>
        obind (node_query_parts merge label rest) (fun qs => Ret (q :: qs)))
  end.

(** Lines 354-361: the bound properties, non-empty cells only. *)
Fixpoint node_properties (row : Row) (properties : Props) : Outcome Props :=
  match row with
  | [] => Ret properties
  | (key, value) :: rest =>
      if negb (key_in key ["id"; "labels"]) && PyStr.truthy value then
        obind (node_convert value) (fun v =>
          node_properties rest (dict_set key v properties))
      else node_properties rest properties
  end.

(** Lines 351-369: the bulk record of one node row. *)
Definition node_record (row : Row) : Outcome NodeRecord :=
  let node_id := row_get row "id" "" in
  obind (node_properties row []) (fun properties =>
    obind (id_value node_id) (fun node_id_value =>
      Ret {| nr_id := node_id_value; nr_props := properties |})).

(** [batch_data] of a node batch (lines 349-369). *)
Fixpoint node_batch_data (batch : list Row) : Outcome (list NodeRecord) :=
  match batch with
  | [] => Ret []
  | row :: rest =>
      obind (node_record row) (fun r =>
        obind (node_batch_data rest) (fun rs => Ret (r :: rs)))
  end.

(** Lines 372-375. *)
Definition node_unwind_query (merge : bool) (label : string) : string :=
  if merge then
    ("UNWIND $batch AS row MERGE (n:" ++ label ++ " {id: row.id}) SET n += row.props")%string
  else
    ("UNWIND $batch AS row CREATE (n:" ++ label ++ ") SET n.id = row.id, n += row.props")%string.

(** Fallback of both loaders: every query of [query_parts] is tried,
    a failing one is reported and passed over. *)
Definition run_individually (o : Origin) (query_parts : list string) : M unit :=
  for_each query_parts (fun query => swallow (graph_query o query NoParams)).

(** Body of the batch loop of [load_nodes_batch] (lines 293-390). *)
Definition load_node_batch (label : string) (batch : list Row) : M unit :=
  me <- get_self ;;
  query_parts <- lift (node_query_parts (merge_mode me) label batch) ;;
  try_except
    (batch_data <- lift (node_batch_data batch) ;;
     me' <- get_self ;;
     graph_query NodeBulk (node_unwind_query (merge_mode me') label)
                 (NodeBatch batch_data))
    (fun _ => run_individually NodeRow query_parts).

Definition load_nodes_batch (file_path : string) (batch_size : Z) : M unit :=
  let filename := basename file_path in
  let label := node_label_of filename in
  rows <- read_csv_file file_path ;;
  match rows with
  | [] => ret tt
  | _ =>
      batches <- lift (batches_of rows batch_size) ;;
      for_each batches (load_node_batch label)
  end.

(** *** Edge translation *)

Definition edge_reserved : list string :=
  ["source"; "target"; "type"; "source_label"; "target_label"].

(** Line 426 and 516: rows without a source or a target are passed
    over. *)
Definition edge_row_dropped (row : Row) : bool :=
  negb (PyStr.truthy (row_get row "source" ""))
  || negb (PyStr.truthy (row_get row "target" "")).

(** Lines 436-451 and 523-536: the properties of an edge row. *)
Fixpoint edge_properties (row : Row) (properties : Props) : Outcome Props :=
  match row with
  | [] => Ret properties
  | (key, value) :: rest =>
      if negb (key_in key edge_reserved) && PyStr.truthy value then
        obind (edge_convert value) (fun v =>
          edge_properties rest (dict_set (clean_key key) v properties))
      else edge_properties rest properties
  end.

Definition edge_set_clause (properties : Props) : string :=
  match properties with
  | [] => ""%string
  | _ =>
      (" SET " ++ PyStr.join ", "
         (map (fun kv => "r." ++ fst kv ++ " = " ++ py_repr (snd kv)) properties))%string
  end.

(** Lines 460-498: the text of the fallback query of one edge row. *)
Definition edge_row_text (merge : bool) (rel_type : string)
           (source_label target_label source_id_str target_id_str : string)
           (properties : Props) : string :=
  let prop_str :=
    PyStr.join ", " (map (fun kv => (fst kv ++ ": " ++ py_repr (snd kv))%string) properties) in
  let braces := if PyStr.truthy prop_str then (" {" ++ prop_str ++ "}")%string else ""%string in
  if PyStr.truthy source_label && PyStr.truthy target_label then
    let source_label_first := first_segment ":" source_label in
    let target_label_first := first_segment ":" target_label in
    if merge then
      ("MERGE (a:" ++ source_label_first ++ " {id: " ++ source_id_str ++ "}) "
       ++ "MERGE (b:" ++ target_label_first ++ " {id: " ++ target_id_str ++ "}) "
       ++ "MERGE (a)-[r:" ++ rel_type ++ "]->(b)"
       ++ edge_set_clause properties)%string
    else
      ("MATCH (a:" ++ source_label_first ++ " {id: " ++ source_id_str
       ++ "}), (b:" ++ target_label_first ++ " {id: " ++ target_id_str ++ "})"
       ++ " "
       ++ "CREATE (a)-[:" ++ rel_type ++ braces ++ "]->(b)")%string
  else
    if merge then
      ("MERGE (a {id: " ++ source_id_str ++ "}) "
       ++ "MERGE (b {id: " ++ target_id_str ++ "}) "
       ++ "MERGE (a)-[r:" ++ rel_type ++ "]->(b)"
       ++ edge_set_clause properties)%string
    else
      ("MATCH (a {id: " ++ source_id_str ++ "}), (b {id: " ++ target_id_str ++ "})"
       ++ " "
       ++ "CREATE (a)-[:" ++ rel_type ++ braces ++ "]->(b)")%string.

(** Lines 422-498: the fallback query of one edge row, [None] for a
    row that is passed over. *)
Definition edge_row_query (merge : bool) (rel_type : string) (row : Row)
  : Outcome (option string) :=
  let source_id := row_get row "source" "" in
  let target_id := row_get row "target" "" in
  if edge_row_dropped row then Ret None
  else
    let source_label := PyStr.strip (row_get row "source_label" "") in
    let target_label := PyStr.strip (row_get row "target_label" "") in
    obind (edge_properties row []) (fun properties =>
      Ret (Some (edge_row_text merge rel_type source_label target_label
                   (id_text source_id) (id_text target_id) properties))).

(** [query_parts] of an edge batch. *)
Fixpoint edge_query_parts (merge : bool) (rel_type : string) (batch : list Row)
  : Outcome (list string) :=
  match batch with
  | [] => Ret []
  | row :: rest =>
      obind (edge_row_query merge rel_type row) (fun q =>
        obind (edge_query_parts merge rel_type rest) (fun qs =>
          Ret (match q with Some text => text :: qs | None => qs end)))
  end.

(** Lines 543-544. *)
Definition label_first (label : string) : string :=
  if PyStr.truthy label && PyStr.contains ":" label
  then first_segment ":" label else label.

(** Lines 513-552: the bulk record of one edge row, [None] for a row
    that is passed over. *)
Definition edge_record (row : Row) : Outcome (option EdgeRecord) :=
  let source_id := row_get row "source" "" in
  let target_id := row_get row "target" "" in
  if edge_row_dropped row then Ret None
  else
    let source_label := PyStr.strip (row_get row "source_label" "") in
    let target_label := PyStr.strip (row_get row "target_label" "") in
    obind (edge_properties row []) (fun properties =>
      obind (id_value source_id) (fun source_id_value =>
        obind (id_value target_id) (fun target_id_value =>
          Ret (Some {| er_source_id := source_id_value;
                       er_target_id := target_id_value;
                       er_source_label := label_first source_label;
                       er_target_label := label_first target_label;
                       er_props := properties |})))).

(** [batch_data] of an edge batch. *)
Fixpoint edge_batch_data (batch : list Row) : Outcome (list EdgeRecord) :=
  match batch with
  | [] => Ret []
  | row :: rest =>
      obind (edge_record row) (fun r =>
        obind (edge_batch_data rest) (fun rs =>
          Ret (match r with Some rec => rec :: rs | None => rs end)))
  end.

Definition nl : string := String (ascii_of_nat 10) EmptyString.

(** Indentation of the lines of the triple-quoted queries. *)
Definition pad : string := "                            ".

Definition query_lines (lines : list string) : string :=
  (fold_right (fun line acc => nl ++ pad ++ line ++ acc) (nl ++ pad) lines)%string.

(** Endpoint patterns of the bulk query when the first record carries
    both labels (lines 561-562, 579-580). *)
Definition labelled_unwind_query (merge : bool) (rel_type : string)
           (source_label target_label : string) : string :=
  if merge then
    query_lines
      ["UNWIND $batch AS row";
       "MERGE (a:" ++ source_label ++ " {id: row.source_id})";
       "MERGE (b:" ++ target_label ++ " {id: row.target_id})";
       "MERGE (a)-[r:" ++ rel_type ++ "]->(b)";
       "SET r += row.props"]%string
  else
    query_lines
      ["UNWIND $batch AS row";
       "MATCH (a:" ++ source_label ++ " {id: row.source_id})";
       "MATCH (b:" ++ target_label ++ " {id: row.target_id})";
       "CREATE (a)-[r:" ++ rel_type ++ "]->(b)";
       "SET r += row.props"]%string.

(** Endpoint patterns by identifier alone (lines 569-570, 587-588). *)
Definition unlabelled_unwind_query (merge : bool) (rel_type : string) : string :=
  if merge then
    query_lines
      ["UNWIND $batch AS row";
       "MERGE (a {id: row.source_id})";
       "MERGE (b {id: row.target_id})";
       "MERGE (a)-[r:" ++ rel_type ++ "]->(b)";
       "SET r += row.props"]%string
  else
    query_lines
      ["UNWIND $batch AS row";
       "MATCH (a {id: row.source_id})";
       "MATCH (b {id: row.target_id})";
       "CREATE (a)-[r:" ++ rel_type ++ "]->(b)";
       "SET r += row.props"]%string.

(** Lines 555-591: the bulk query of a batch, [None] when
    [batch_data] is empty. *)
Definition edge_unwind_query (merge : bool) (rel_type : string)
           (batch_data : list EdgeRecord) : option string :=
  match batch_data with
  | [] => None
  | first :: _ =>
      Some (if PyStr.truthy (er_source_label first)
               && PyStr.truthy (er_target_label first)
            then labelled_unwind_query merge rel_type
                   (er_source_label first) (er_target_label first)
            else unlabelled_unwind_query merge rel_type)
  end.

(** Body of the batch loop of [load_edges_batch] (lines 417-606). *)
Definition load_edge_batch (rel_type : string) (batch : list Row) : M unit :=
  me <- get_self ;;
  query_parts <- lift (edge_query_parts (merge_mode me) rel_type batch) ;;
  try_except
    (batch_data <- lift (edge_batch_data batch) ;;
     me' <- get_self ;;
     match edge_unwind_query (merge_mode me') rel_type batch_data with
     | None => ret tt
     | Some unwind_query =>
         graph_query EdgeBulk unwind_query (EdgeBatch batch_data)
     end)
    (fun _ => run_individually EdgeRow query_parts).

Definition load_edges_batch (file_path : string) (batch_size : Z) : M unit :=
  let filename := basename file_path in
  let rel_type := rel_type_of filename in
  rows <- read_csv_file file_path ;;
  match rows with
  | [] => ret tt
  | _ =>
      batches <- lift (batches_of rows batch_size) ;;
      for_each batches (load_edge_batch rel_type)
  end.

(** *** Orchestration *)

Definition _load_single_graph_csvs (batch_size : Z) : M unit :=
  me <- get_self ;;
  csv_files <- os_listdir (csv_dir me) ;;
  let node_files := filter is_node_file csv_files in
  let edge_files := filter is_edge_file csv_files in
  create_id_indexes_for_all_labels ;;;
  create_indexes_from_csv ;;;
  create_supporting_indexes_for_constraints ;;;
  create_constraints_from_csv ;;;
  for_each node_files (fun node_file =>
    me1 <- get_self ;;
    load_nodes_batch (path_join (csv_dir me1) node_file) batch_size) ;;;
  for_each edge_files (fun edge_file =>
    me2 <- get_self ;;
    load_edges_batch (path_join (csv_dir me2) edge_file) batch_size).

(** Body of the tenant loop (lines 687-717). *)
Definition load_tenant (batch_size : Z) (tenant_dir : string) : M unit :=
  me <- get_self ;;
  let tenant_path := path_join (csv_dir me) tenant_dir in
  let tenant_name := PyStr.replace "tenant_" "" tenant_dir in
  let graph_name' := (graph_name me ++ "_" ++ tenant_name)%string in
  select_graph graph_name' ;;;
  me' <- get_self ;;
  let original_csv_dir := csv_dir me' in
  set_csv_dir tenant_path ;;;
  try_finally
    (swallow (_load_single_graph_csvs batch_size))
    (set_csv_dir original_csv_dir).

Definition _load_multi_graph_csvs (batch_size : Z) : M unit :=
  me <- get_self ;;
  entries <- os_listdir (csv_dir me) ;;
  let subdirs :=
    filter (fun d => fs_isdir fs (path_join (csv_dir me) d)
                     && PyStr.startswith "tenant_" d) entries in
  match subdirs with
  | [] => _load_single_graph_csvs batch_size
  | _ => for_each (sorted subdirs) (load_tenant batch_size)
  end.

Definition load_all_csvs (batch_size : Z) : M unit :=
  me <- get_self ;;
  if negb (fs_exists fs (csv_dir me)) then ret tt
  else if multi_graph_mode me then _load_multi_graph_csvs batch_size
  else _load_single_graph_csvs batch_size.

End Loader.

(** ** Specification vocabulary *)

(** Position of a call site in the pipeline of one graph: the four
    schema steps in their order, then node writes, then edge writes. *)
Definition phase (o : Origin) : nat :=
  match o with
  | IdIndex => 0
  | DescriptorIndex => 1
  | SupportingIndex => 2
  | ConstraintCreate => 3
  | NodeBulk | NodeRow => 4
  | EdgeBulk | EdgeRow => 5
  end.

Definition phase_le (a b : Event) : Prop :=
  phase (ev_origin a) <= phase (ev_origin b).

(** A method leaves the fields of the loader as it found them. *)
Definition keeps_self {A} (m : M A) : Prop :=
  forall st, self (snd (m st)) = self st.

(** A method only appends requests, in pipeline order, all of them from
    phases [lo..hi]. *)
Definition emits (lo hi : nat) {A} (m : M A) : Prop :=
  forall st, exists seg,
    issued (snd (m st)) = issued st ++ seg
    /\ StronglySorted phase_le seg
    /\ Forall (fun e => lo <= phase (ev_origin e) <= hi) seg.

(** A method leaves the source directory as it found it. *)
Definition keeps_csv_dir {A} (m : M A) : Prop :=
  forall st, csv_dir (self (snd (m st))) = csv_dir (self st).

Definition event (o : Origin) (rq : Request) : Event :=
  {| ev_origin := o; ev_request := rq |}.

(** The state after the requests [seg] have been sent. *)
Definition after (st : State) (seg : list Event) : State :=
  {| self := self st; issued := issued st ++ seg |}.

(** The loader on entering the iteration of [tenant_dir]: the tenant's
    graph selected, the source directory set to the tenant's. *)
Definition enter_tenant (st : State) (tenant_dir : string) : State :=
  let l := self st in
  {| self :=
       {| graph_name := graph_name l;
          csv_dir := path_join (csv_dir l) tenant_dir;
          merge_mode := merge_mode l;
          multi_graph_mode := multi_graph_mode l;
          graph := Some (graph_name l ++ "_"
                         ++ PyStr.replace "tenant_" "" tenant_dir)%string |};
     issued := issued st |}.

(** The loader on leaving a tenant iteration: the source directory set
    back to [root]. *)
Definition leave_tenant (root : string) (st : State) : State :=
  let l := self st in
  {| self :=
       {| graph_name := graph_name l; csv_dir := root;
          merge_mode := merge_mode l;
          multi_graph_mode := multi_graph_mode l;
          graph := graph l |};
     issued := issued st |}.

(** The request [create_indexes_from_csv] sends for one (label, property)
    pair. *)
Definition index_event (g : string) (pair : string * string) : Event :=
  event DescriptorIndex (GraphQuery g (index_query (fst pair) (snd pair)) NoParams).

(** The fallback queries [parts] as requests. *)
Definition row_events (o : Origin) (g : string) (parts : list string) : list Event :=
  map (fun q => event o (GraphQuery g q NoParams)) parts.

(** The requests of one batch whose bulk request is [bulk]: the bulk
    request, followed by every per-row query when the store refuses it. *)
Definition batch_events (store : list Event -> Request -> bool)
           (o_bulk o_row : Origin) (st : State) (g : string)
           (bulk : Request) (parts : list string) : list Event :=
  event o_bulk bulk
  :: (if store (issued st) bulk then [] else row_events o_row g parts).

(** What may follow a run of digits without being read into it. *)
Definition ends_run (rest : string) : bool :=
  match rest with
  | EmptyString => true
  | String c _ => negb (PyStr.is_digit c) && negb (Ascii.eqb c "_")
  end.

(** No character of the text is blank, so [strip] leaves it alone. *)
Fixpoint no_blank (s : string) : bool :=
  match s with
  | EmptyString => true
  | String c s' => negb (PyStr.is_space c) && no_blank s'
  end.

(** ** Concrete inputs *)

Module Scenario.

(** A store that accepts every request, and one that refuses all. *)
Definition accepting (_ : list Event) (_ : Request) : bool := true.
Definition refusing (_ : list Event) (_ : Request) : bool := false.

(** A stand-in for [repr]: strings in single quotes, integers in
    decimal, anything else as a fixed word. *)
Definition plain_repr (v : PyValue) : string :=
  match v with
  | PyString s => ("'" ++ s ++ "'")%string
  | PyInt z => PyStr.str_of_nat (Z.to_nat z)
  | PyFloatV _ => "<float>"%string
  | PyNone => "None"%string
  end.

Definition in_list (p : string) (l : list string) : bool :=
  existsb (String.eqb p) l.

Definition unique_person : Row :=
  [("labels", "Person"); ("properties", "id"); ("type", "UNIQUE")]%string.

(** A root directory with the tenants [tenant_a] and [tenant_b];
    [tenant_a] declares one unique constraint. *)
Definition tenant_fs : FileSystem :=
  {| fs_exists := fun p =>
       in_list p ["root"; "root/tenant_a"; "root/tenant_b";
                  "root/tenant_a/constraints.csv"]%string;
     fs_isdir := fun p =>
       in_list p ["root"; "root/tenant_a"; "root/tenant_b"]%string;
     fs_listdir := fun p =>
       if String.eqb p "root" then Some ["tenant_a"; "tenant_b"]%string
       else if String.eqb p "root/tenant_a" then Some ["constraints.csv"]%string
       else if String.eqb p "root/tenant_b" then Some []
       else None;
     fs_rows := fun p =>
       if String.eqb p "root/tenant_a/constraints.csv"
       then Some [unique_person] else None |}.

(** The loader as [main] builds it for [g --csv-dir root --multi-graph]. *)
Definition multi_start : State :=
  {| self := init_loader "g" "root" false true; issued := [] |}.

(** The loader for graph [g] in single-graph mode. *)
Definition single_start : State :=
  {| self := init_loader "g" "root" false false; issued := [] |}.

Definition alice : Row :=
  [("id", "1"); ("labels", "Person"); ("name", "Alice"); ("age", "30")]%string.

(** A node row without identifier. *)
Definition nameless : Row :=
  [("id", ""); ("labels", "Person"); ("name", "Bob")]%string.

Definition knows : Row :=
  [("source", "1"); ("target", "2"); ("source_label", "Person");
   ("target_label", "Person"); ("weight", "0.5")]%string.

(** An edge row without source. *)
Definition dangling : Row :=
  [("source", ""); ("target", "2"); ("weight", "1")]%string.

(** An edge row with a property column named [type:type]. *)
Definition typed_edge : Row :=
  [("source", "1"); ("target", "2"); ("type:type", "x")]%string.

(** A node row with a doubled minus sign in a numeric column. *)
Definition overdrawn : Row :=
  [("id", "7"); ("balance", "--5")]%string.

Definition name_index : Row :=
  [("labels", "Person;Company"); ("properties", "name;age");
   ("uniqueness", "NON_UNIQUE"); ("type", "RANGE")]%string.

(** A descriptor row whose kind is written in lower case, and one whose
    label list has an empty segment. *)
Definition lookup_index : Row :=
  [("labels", "Person"); ("properties", "name");
   ("uniqueness", "NON_UNIQUE"); ("type", "lookup")]%string.

Definition gapped_index : Row :=
  [("labels", "Person;;Company"); ("properties", "name");
   ("uniqueness", "NON_UNIQUE"); ("type", "RANGE")]%string.

(** A descriptor row whose labels are blank without being empty. *)
Definition blank_index : Row :=
  [("labels", "  "); ("properties", "name");
   ("uniqueness", "NON_UNIQUE"); ("type", "RANGE")]%string.

End Scenario.

(** ** Vocabulary for whole methods *)

(** A method always returns normally. *)
Definition returns (m : M unit) : Prop :=
  forall st, fst (m st) = Ret tt.

(** Where a request goes, seen from the loader [l] that sends it: a
    graph query to the selected handle, a command (only constraint
    creation sends one) to the graph named by [graph_name]. *)
Definition well_routed (l : Loader) (e : Event) : Prop :=
  match ev_request e with
  | GraphQuery g _ _ => graph l = Some g
  | ExecCommand args =>
      nth_error args 2 = Some (graph_name l)
      /\ ev_origin e = ConstraintCreate
  end.

(** A method keeps the loader's fields and only appends well-routed
    requests. *)
Definition routes {A} (m : M A) : Prop :=
  forall st,
    self (snd (m st)) = self st
    /\ exists seg,
        issued (snd (m st)) = issued st ++ seg
        /\ Forall (well_routed (self st)) seg.

(** The requests one row of [indexes.csv] stands for. *)
Definition index_row_events (g : string) (index : Row) : list Event :=
  if index_row_skipped index then []
  else map (index_event g)
           (list_prod (split_list (PyStr.strip (row_get index "labels" "")))
                      (split_list (PyStr.strip (row_get index "properties" "")))).

(** The labels of a row of [constraints.csv] that get a unique
    constraint: none unless the row has labels, properties and a type
    containing UNIQUE. *)
Definition unique_constraint_labels (constraint : Row) : list string :=
  let labels := PyStr.strip (row_get constraint "labels" "") in
  let properties := PyStr.strip (row_get constraint "properties" "") in
  let constraint_type := PyStr.upper (row_get constraint "type" "") in
  if negb (PyStr.truthy labels) || negb (PyStr.truthy properties)
     || negb (PyStr.contains "UNIQUE" constraint_type) then []
  else split_list labels.

Definition constraint_props (constraint : Row) : list string :=
  split_list (PyStr.strip (row_get constraint "properties" "")).

Definition supporting_event (g : string) (constraint : Row) (label : string) : Event :=
  event SupportingIndex
    (GraphQuery g (supporting_index_query label (constraint_props constraint))
                NoParams).

Definition constraint_event (key : string) (constraint : Row) (label : string) : Event :=
  event ConstraintCreate
    (ExecCommand
       (constraint_command key
          (PyStr.upper (row_get constraint "entity_type" "NODE"))
          label (constraint_props constraint))).

(** An entry that is not an explicit [None]. *)
Definition not_none (kv : string * PyValue) : bool :=
  match snd kv with
  | PyNone => false
  | _ => true
  end.

(** One tenant iteration as a state transformer. *)
Definition tenant_step (store : list Event -> Request -> bool) (fs : FileSystem)
           (py_repr : PyValue -> string) (batch_size : Z)
           (st : State) (tenant_dir : string) : State :=
  leave_tenant (csv_dir (self st))
    (snd (_load_single_graph_csvs store fs py_repr batch_size
            (enter_tenant st tenant_dir))).

(** The graph a tenant directory is loaded into. *)
Definition tenant_graph (l : Loader) (tenant_dir : string) : string :=
  (graph_name l ++ "_" ++ PyStr.replace "tenant_" "" tenant_dir)%string.

(** Two methods end alike from loaders that are alike: same result or
    same exception, same fields of the loader afterwards.  The requests
    sent on the way may differ. *)
Definition same_outcome {A} (m1 m2 : M A) : Prop :=
  forall st1 st2,
    self st1 = self st2 ->
    fst (m1 st1) = fst (m2 st2) /\ self (snd (m1 st1)) = self (snd (m2 st2)).

(** Cell text made of ASCII characters only. *)
Fixpoint ascii_text (s : string) : bool :=
  match s with
  | EmptyString => true
  | String c s' => (nat_of_ascii c <? 128) && ascii_text s'
  end.

(** [s.replace(c, d)] for single characters, as a map over the text. *)
Definition swap_char (c d : ascii) (x : ascii) : ascii :=
  if Ascii.eqb x c then d else x.

(** Further inputs. *)
Module Cases.

(** A directory without tenant sub-directories, holding one node file. *)
Definition flat_fs : FileSystem :=
  {| fs_exists := fun p =>
       Scenario.in_list p ["root"; "root/nodes_Person.csv"]%string;
     fs_isdir := fun p => String.eqb p "root";
     fs_listdir := fun p =>
       if String.eqb p "root" then Some ["nodes_Person.csv"]%string else None;
     fs_rows := fun p =>
       if String.eqb p "root/nodes_Person.csv"
       then Some [Scenario.alice] else None |}.

(** A directory with an index descriptor and a constraint descriptor. *)
Definition schema_fs : FileSystem :=
  {| fs_exists := fun p =>
       Scenario.in_list p ["root"; "root/indexes.csv"; "root/constraints.csv"]%string;
     fs_isdir := fun p => String.eqb p "root";
     fs_listdir := fun p =>
       if String.eqb p "root"
       then Some ["indexes.csv"; "constraints.csv"]%string else None;
     fs_rows := fun p =>
       if String.eqb p "root/indexes.csv" then Some [Scenario.name_index]
       else if String.eqb p "root/constraints.csv"
            then Some [Scenario.unique_person] else None |}.

End Cases.

(** ** The embedding on small inputs *)

Example typing_samples :
  node_typed_value "" = Ret PyNone
  /\ node_typed_value "007" = Ret (PyInt 7)
  /\ node_typed_value "1.5" = Ret (PyFloatV (FFinite false 15 (-1)))
  /\ node_typed_value "-.5" = Ret (PyFloatV (FFinite true 5 (-1)))
  /\ node_typed_value "1e5" = Ret (PyString "1e5")
  /\ node_typed_value "1.2.3" = Ret (PyString "1.2.3")
  /\ edge_typed_value "0.5" = Ret (PyFloatV (FFinite false 5 (-1)))
  /\ edge_typed_value "Alice" = Ret (PyString "Alice").
Proof. repeat split; reflexivity. Qed.

Example label_samples :
  node_label_of "nodes_Person.csv" = "Person"%string
  /\ node_label_of "nodes_OS:Process.csv" = "OS_Process"%string
  /\ rel_type_of "edges_KNOWS.csv" = "KNOWS"%string
  /\ label_first "OS:Process" = "OS"%string
  /\ clean_key "Date:Date" = "Date"%string
  /\ clean_key "a:b" = "a:b"%string.
Proof. repeat split; reflexivity. Qed.

(** A node file with the rows [(1,Person,Alice,30)] and [(2,Person,Bob,)]
    in create mode: two records with integer identifiers, the empty [age]
    left out of the second. *)
Example node_file_sample :
  node_batch_data
    [Scenario.alice;
     [("id", "2"); ("labels", "Person"); ("name", "Bob"); ("age", "")]%string]
  = Ret [{| nr_id := PyInt 1;
            nr_props := [("name", PyString "Alice"); ("age", PyInt 30)]%string |};
         {| nr_id := PyInt 2;
            nr_props := [("name", PyString "Bob")]%string |}].
Proof. reflexivity. Qed.

Example batching_sample :
  batches_of [Scenario.alice; Scenario.nameless; Scenario.overdrawn] 2
  = Ret [[Scenario.alice; Scenario.nameless]; [Scenario.overdrawn]]
  /\ batches_of [Scenario.alice] 0 = Raise ValueError
  /\ batches_of [Scenario.alice] (-1) = Ret [].
Proof. repeat split; reflexivity. Qed.

(** ** Numeric text *)

Lemma digit_facts c :
  PyStr.is_digit c = true ->
  PyStr.is_space c = false
  /\ Ascii.eqb c "_" = false /\ Ascii.eqb c "." = false
  /\ PyStr.sign (String c EmptyString) = (false, String c EmptyString)
  /\ PyStr.lower_char c = c.
Proof.
  destruct c as [[] [] [] [] [] [] [] []]; vm_compute; intro H;
    try discriminate H; repeat split.
Qed.

Lemma digitpart_unfold c x :
  PyStr.digitpart (String c x)
  = if PyStr.is_digit c then
      match x with
      | EmptyString => (String c EmptyString, EmptyString)
      | String u t =>
          if Ascii.eqb u "_" then
            match t with
            | String d _ =>
                if PyStr.is_digit d
                then let (ds, r) := PyStr.digitpart t in (String c ds, r)
                else (String c EmptyString, x)
            | EmptyString => (String c EmptyString, x)
            end
          else let (ds, r) := PyStr.digitpart x in (String c ds, r)
      end
    else (EmptyString, String c x).
Proof. reflexivity. Qed.

Lemma digitpart_run s rest :
  PyStr.all_digits s = true -> ends_run rest = true ->
  PyStr.digitpart (s ++ rest) = (s, rest).
Proof.
  intros Hs Hrest. induction s as [| c s IH].
  - simpl. destruct rest as [| u t]; [reflexivity |].
    simpl in Hrest. apply andb_true_iff in Hrest. destruct Hrest as [Hu _].
    rewrite digitpart_unfold. apply negb_true_iff in Hu. now rewrite Hu.
  - simpl in Hs. apply andb_true_iff in Hs. destruct Hs as [Hc Hs].
    specialize (IH Hs).
    change (String c s ++ rest)%string with (String c (s ++ rest)%string).
    rewrite digitpart_unfold, Hc.
    destruct (s ++ rest)%string as [| u t] eqn:Hx.
    + destruct s; [| discriminate Hx]. simpl in Hx. now subst.
    + assert (Hu : Ascii.eqb u "_" = false).
      { destruct s as [| d s'].
        - simpl in Hx. subst rest. simpl in Hrest.
          apply andb_true_iff in Hrest. destruct Hrest as [_ Hu].
          now apply negb_true_iff in Hu.
        - simpl in Hx. inversion Hx; subst. simpl in Hs.
          apply andb_true_iff in Hs. destruct Hs as [Hd _].
          now destruct (digit_facts _ Hd) as (_ & Hu & _). }
      rewrite Hu, IH. reflexivity.
Qed.

Lemma append_nil_r (s : string) : (s ++ "")%string = s.
Proof. induction s; simpl; congruence. Qed.

Lemma strip_no_blank s : no_blank s = true -> PyStr.strip s = s.
Proof.
  intro H. unfold PyStr.strip.
  assert (Hl : PyStr.lstrip s = s).
  { destruct s as [| c s']; [reflexivity |]. simpl in *.
    apply andb_true_iff in H. destruct H as [Hc _].
    apply negb_true_iff in Hc. now rewrite Hc. }
  rewrite Hl. clear Hl. induction s as [| c s' IH]; [reflexivity |].
  simpl in *. apply andb_true_iff in H. destruct H as [Hc Hs].
  rewrite (IH Hs). apply negb_true_iff in Hc. rewrite Hc.
  now destruct s'.
Qed.

Lemma no_blank_app s t :
  no_blank s = true -> no_blank t = true -> no_blank (s ++ t) = true.
Proof.
  intros Hs Ht. induction s as [| c s IH]; simpl in *; auto.
  apply andb_true_iff in Hs. destruct Hs as [Hc Hs]. now rewrite Hc, IH.
Qed.

Lemma all_digits_no_blank s : PyStr.all_digits s = true -> no_blank s = true.
Proof.
  induction s as [| c s IH]; simpl; auto. intro H.
  apply andb_true_iff in H. destruct H as [Hc Hs].
  destruct (digit_facts c Hc) as (Hsp & _). now rewrite Hsp, IH.
Qed.

Lemma sign_digit c r :
  PyStr.is_digit c = true -> PyStr.sign (String c r) = (false, String c r).
Proof.
  destruct c as [[] [] [] [] [] [] [] []]; vm_compute; intro H;
    try discriminate H; reflexivity.
Qed.

Lemma not_a_word c r :
  PyStr.is_digit c = true \/ c = "."%char ->
  (String.eqb (PyStr.lower (String c r)) "inf"
   || String.eqb (PyStr.lower (String c r)) "infinity") = false
  /\ String.eqb (PyStr.lower (String c r)) "nan" = false.
Proof.
  intros [H | H].
  - destruct c as [[] [] [] [] [] [] [] []]; try discriminate H;
      split; reflexivity.
  - subst. split; reflexivity.
Qed.

Lemma py_int_digits s :
  PyStr.isdigit s = true ->
  PyStr.py_int s = Some (Z.of_N (PyStr.digits_value 0 s)).
Proof.
  destruct s as [| c s']; [discriminate |]. intro H.
  change (PyStr.all_digits (String c s') = true) in H.
  unfold PyStr.py_int.
  rewrite (strip_no_blank _ (all_digits_no_blank _ H)).
  pose proof H as H'. simpl in H'. apply andb_true_iff in H'.
  rewrite (sign_digit c s' (proj1 H')).
  rewrite <- (append_nil_r (String c s')) at 1.
  rewrite (digitpart_run _ "" H eq_refl). reflexivity.
Qed.

Lemma replace_exhausted old new s :
  PyStr.replace_go old new (Some 0) 0 s = s.
Proof. induction s as [| c s IH]; simpl; congruence. Qed.

Lemma prefix_dot c s : prefix "." (String c s) = Ascii.eqb c ".".
Proof.
  cbn [prefix]. destruct (ascii_dec "." c) as [E | E].
  - subst c. now destruct s.
  - symmetry. apply Ascii.eqb_neq. congruence.
Qed.

Lemma digits_after_dot_removed value :
  PyStr.all_digits (PyStr.replace_n "." "" 1 value) = true ->
  PyStr.all_digits value = true
  \/ exists a b, value = (a ++ String "." b)%string
                 /\ PyStr.all_digits a = true /\ PyStr.all_digits b = true
                 /\ PyStr.replace_n "." "" 1 value = (a ++ b)%string.
Proof.
  unfold PyStr.replace_n. induction value as [| c s IH]; intro H.
  - now left.
  - cbn [PyStr.replace_go] in H |- *. rewrite prefix_dot in H |- *.
    destruct (Ascii.eqb c ".") eqn:Hdot.
    + apply Ascii.eqb_eq in Hdot. subst c.
      cbn [andb String.length pred append] in H |- *.
      rewrite replace_exhausted in H |- *.
      right. exists EmptyString, s. repeat split; auto.
    + cbn [andb PyStr.all_digits] in H |- *.
      apply andb_true_iff in H. destruct H as [Hc Hs].
      destruct (IH Hs) as [Hall | (a & b & E & Ha & Hb & Hr)].
      * left. now rewrite Hc.
      * right. exists (String c a), b. subst s. repeat split; auto.
        -- simpl. now rewrite Hc.
        -- simpl. now rewrite Hr.
Qed.

Lemma py_float_digits s :
  PyStr.isdigit s = true ->
  py_float s = Some (FFinite false (PyStr.digits_value 0 s) 0).
Proof.
  destruct s as [| c s']; [discriminate |]. intro H.
  change (PyStr.all_digits (String c s') = true) in H.
  pose proof H as H'. simpl in H'. apply andb_true_iff in H'.
  destruct H' as [Hc Hs].
  unfold py_float.
  rewrite (strip_no_blank _ (all_digits_no_blank _ H)).
  rewrite (sign_digit c s' Hc).
  destruct (not_a_word c s' (or_introl Hc)) as [Hinf Hnan].
  rewrite Hinf, Hnan.
  rewrite <- (append_nil_r (String c s')) at 1.
  rewrite (digitpart_run _ "" H eq_refl).
  cbn. now rewrite append_nil_r.
Qed.

Lemma py_float_decimal a b :
  PyStr.all_digits a = true -> PyStr.all_digits b = true ->
  PyStr.truthy (a ++ b) = true ->
  py_float (a ++ String "." b)
  = Some (FFinite false (PyStr.digits_value 0 (a ++ b))
                  (- Z.of_nat (String.length b))).
Proof.
  intros Ha Hb Hne. unfold py_float.
  assert (Hblank : no_blank (a ++ String "." b) = true).
  { apply no_blank_app; [now apply all_digits_no_blank |].
    simpl. now apply all_digits_no_blank. }
  rewrite (strip_no_blank _ Hblank).
  assert (Hhead : exists c r, (a ++ String "." b)%string = String c r
                              /\ (PyStr.is_digit c = true \/ c = "."%char)).
  { destruct a as [| c a']; simpl.
    - exists "."%char, b. split; auto.
    - simpl in Ha. apply andb_true_iff in Ha.
      exists c, (a' ++ String "." b)%string.
      split; [reflexivity | left; tauto]. }
  destruct Hhead as (c & r & Hcr & Hc).
  assert (Hsign : PyStr.sign (a ++ String "." b)
                  = (false, (a ++ String "." b)%string)).
  { rewrite Hcr. destruct Hc as [Hc | Hc]; [now apply sign_digit | now subst]. }
  rewrite Hsign.
  destruct (not_a_word c r Hc) as [Hinf Hnan].
  rewrite <- Hcr in Hinf, Hnan. rewrite Hinf, Hnan.
  rewrite (digitpart_run a (String "." b) Ha eq_refl).
  rewrite <- (append_nil_r b) at 1.
  rewrite (digitpart_run b "" Hb eq_refl).
  assert (Htest : negb (PyStr.truthy a) && negb (PyStr.truthy b) = false).
  { destruct a; [destruct b; [discriminate Hne | reflexivity] | reflexivity]. }
  rewrite Htest. reflexivity.
Qed.

Lemma edge_convert_total value : exists v, edge_convert value = Ret v.
Proof.
  unfold edge_convert.
  destruct (PyStr.isdigit value) eqn:Hd.
  - rewrite (py_int_digits _ Hd). simpl. eauto.
  - destruct (PyStr.isdigit (PyStr.replace_n "." "" 1 value)) eqn:Hf; [| eauto].
    assert (Hall : PyStr.all_digits (PyStr.replace_n "." "" 1 value) = true).
    { destruct (PyStr.replace_n "." "" 1 value); [discriminate | exact Hf]. }
    destruct (digits_after_dot_removed value Hall)
      as [Hv | (a & b & E & Ha & Hb & Hr)].
    + assert (Hiv : PyStr.isdigit value = true).
      { destruct value; [| exact Hv]. discriminate Hf. }
      congruence.
    + subst value. rewrite py_float_decimal; auto; [simpl; eauto |].
      rewrite Hr in Hf. now destruct (a ++ b)%string.
Qed.

(** ** Basic facts about the method monad *)

Section MonadFacts.

Context {A B : Type}.

Lemma keeps_self_ret (a : A) : keeps_self (ret a).
Proof. intro st. reflexivity. Qed.

Lemma keeps_self_raise (e : Exn) : keeps_self (@raise A e).
Proof. intro st. reflexivity. Qed.

Lemma keeps_self_lift (o : Outcome A) : keeps_self (lift o).
Proof. intro st. reflexivity. Qed.

Lemma keeps_self_bind (m : M A) (k : A -> M B) :
  keeps_self m -> (forall a, keeps_self (k a)) -> keeps_self (bind m k).
Proof.
  intros Hm Hk st. unfold bind.
  specialize (Hm st). destruct (m st) as [[a | e] st1]; simpl in *.
  - now rewrite Hk.
  - exact Hm.
Qed.

Lemma keeps_self_try_except (body : M A) (handler : Exn -> M A) :
  keeps_self body -> (forall e, keeps_self (handler e)) ->
  keeps_self (try_except body handler).
Proof.
  intros Hb Hh st. unfold try_except.
  specialize (Hb st). destruct (body st) as [[a | e] st1]; simpl in *.
  - exact Hb.
  - now rewrite Hh.
Qed.

Lemma emits_ret lo hi (a : A) : emits lo hi (ret a).
Proof.
  intro st. exists []. simpl. rewrite app_nil_r.
  repeat split; constructor.
Qed.

Lemma emits_lift lo hi (o : Outcome A) : emits lo hi (lift o).
Proof.
  intro st. exists []. simpl. rewrite app_nil_r.
  repeat split; constructor.
Qed.

Lemma emits_weaken lo hi lo' hi' (m : M A) :
  emits lo hi m -> lo' <= lo -> hi <= hi' -> emits lo' hi' m.
Proof.
  intros Hm Hlo Hhi st. destruct (Hm st) as (seg & Hseg & Hs & Hr).
  exists seg. repeat split; auto.
  eapply Forall_impl; [| exact Hr]. simpl. intros e He. lia.
Qed.

End MonadFacts.

Lemma phase_sorted_app (lo mid hi : nat) (s1 s2 : list Event) :
  StronglySorted phase_le s1 -> StronglySorted phase_le s2 ->
  Forall (fun e => lo <= phase (ev_origin e) <= mid) s1 ->
  Forall (fun e => mid <= phase (ev_origin e) <= hi) s2 ->
  StronglySorted phase_le (s1 ++ s2).
Proof.
  intros H1 H2 F1 F2. induction s1 as [| e s1 IH]; simpl; auto.
  apply StronglySorted_inv in H1. destruct H1 as [H1 He].
  inversion F1; subst.
  constructor; auto.
  apply Forall_app. split; auto.
  eapply Forall_impl; [| exact F2]. unfold phase_le. simpl. intros b Hb. lia.
Qed.

Lemma emits_bind {A B} lo mid hi (m : M A) (k : A -> M B) :
  lo <= mid -> mid <= hi ->
  emits lo mid m -> (forall a, emits mid hi (k a)) -> emits lo hi (bind m k).
Proof.
  intros Hlo Hhi Hm Hk st. unfold bind.
  destruct (Hm st) as (s1 & E1 & S1 & F1).
  destruct (m st) as [[a | e] st1]; simpl in *.
  - destruct (Hk a st1) as (s2 & E2 & S2 & F2).
    exists (s1 ++ s2). rewrite E2, E1, app_assoc. repeat split.
    + eapply phase_sorted_app; eauto.
    + apply Forall_app. split.
      * eapply Forall_impl; [| exact F1]. simpl. intros; lia.
      * eapply Forall_impl; [| exact F2]. simpl. intros; lia.
  - exists s1. repeat split; auto.
    eapply Forall_impl; [| exact F1]. simpl. intros; lia.
Qed.

Lemma emits_try_except {A} k (body : M A) (handler : Exn -> M A) :
  emits k k body -> (forall e, emits k k (handler e)) ->
  emits k k (try_except body handler).
Proof.
  intros Hb Hh st. unfold try_except.
  destruct (Hb st) as (s1 & E1 & S1 & F1).
  destruct (body st) as [[a | e] st1]; simpl in *.
  - exists s1. auto.
  - destruct (Hh e st1) as (s2 & E2 & S2 & F2).
    exists (s1 ++ s2). rewrite E2, E1, app_assoc. repeat split.
    + eapply phase_sorted_app; eauto.
    + apply Forall_app. split; auto.
Qed.

Lemma keeps_self_for_each {A} (xs : list A) (body : A -> M unit) :
  (forall x, keeps_self (body x)) -> keeps_self (for_each xs body).
Proof.
  intro Hb. induction xs as [| x xs IH]; simpl.
  - apply keeps_self_ret.
  - apply keeps_self_bind; auto.
Qed.

Lemma emits_for_each {A} k (xs : list A) (body : A -> M unit) :
  (forall x, emits k k (body x)) -> emits k k (for_each xs body).
Proof.
  intro Hb. induction xs as [| x xs IH]; simpl.
  - apply emits_ret.
  - apply emits_bind with (mid := k); auto.
Qed.

Lemma keeps_self_swallow (m : M unit) : keeps_self m -> keeps_self (swallow m).
Proof.
  intro Hm. apply keeps_self_try_except; auto. intro. apply keeps_self_ret.
Qed.

Lemma emits_swallow k (m : M unit) : emits k k m -> emits k k (swallow m).
Proof.
  intro Hm. apply emits_try_except; auto. intro. apply emits_ret.
Qed.

Lemma keeps_self_get_self : keeps_self get_self.
Proof. intro st. reflexivity. Qed.

Lemma emits_get_self lo hi : emits lo hi get_self.
Proof.
  intro st. exists []. simpl. rewrite app_nil_r. repeat split; constructor.
Qed.

Create HintDb loader discriminated.

#[export] Hint Resolve keeps_self_ret keeps_self_raise keeps_self_lift
  keeps_self_get_self keeps_self_bind keeps_self_try_except
  keeps_self_for_each keeps_self_swallow : loader.
#[export] Hint Resolve emits_ret emits_lift emits_get_self emits_for_each
  emits_swallow emits_try_except : loader.

(** Sequencing inside one phase. *)
Lemma emits_seq {A B} k (m : M A) (f : A -> M B) :
  emits k k m -> (forall a, emits k k (f a)) -> emits k k (bind m f).
Proof. intros. apply emits_bind with (mid := k); auto. Qed.

#[export] Hint Resolve emits_seq : loader.

(** ** Facts about the methods *)

Section MethodFacts.

Variable store : list Event -> Request -> bool.
Variable fs : FileSystem.
Variable py_repr : PyValue -> string.

Lemma keeps_self_graph_query o q p : keeps_self (graph_query store o q p).
Proof.
  intro st. unfold graph_query.
  destruct (graph (self st)); [destruct (store _ _) |]; reflexivity.
Qed.

Lemma keeps_self_execute_command o args :
  keeps_self (execute_command store o args).
Proof.
  intro st. unfold execute_command. destruct (store _ _); reflexivity.
Qed.

Lemma emits_graph_query o q p :
  emits (phase o) (phase o) (graph_query store o q p).
Proof.
  intro st. unfold graph_query. destruct (graph (self st)) as [g |].
  - exists [event o (GraphQuery g q p)].
    split; [destruct (store _ _); reflexivity |].
    split; repeat constructor.
  - exists []. simpl. rewrite app_nil_r. repeat split; constructor.
Qed.

Lemma emits_execute_command o args :
  emits (phase o) (phase o) (execute_command store o args).
Proof.
  intro st. unfold execute_command.
  exists [event o (ExecCommand args)].
  split; [destruct (store _ _); reflexivity |].
  split; repeat constructor.
Qed.

Lemma keeps_self_read_csv_file p : keeps_self (read_csv_file fs p).
Proof. intro st. reflexivity. Qed.

Lemma keeps_self_os_listdir p : keeps_self (os_listdir fs p).
Proof. intro st. reflexivity. Qed.

Lemma emits_read_csv_file lo hi p : emits lo hi (read_csv_file fs p).
Proof. apply emits_ret. Qed.

Lemma emits_os_listdir lo hi p : emits lo hi (os_listdir fs p).
Proof. apply emits_lift. Qed.

Hint Resolve keeps_self_graph_query keeps_self_execute_command
  keeps_self_read_csv_file keeps_self_os_listdir
  emits_read_csv_file emits_os_listdir : loader.

Ltac method_frame :=
  repeat (first
    [ progress auto with loader
    | apply keeps_self_bind; intros
    | apply keeps_self_for_each; intros
    | apply keeps_self_swallow
    | apply keeps_self_try_except; intros
    | match goal with
      | |- keeps_self (if ?b then _ else _) => destruct b
      | |- keeps_self (match ?x with _ => _ end) => destruct x
      end ]).

Ltac method_phase k :=
  repeat (first
    [ progress auto with loader
    | apply (emits_graph_query IdIndex)
    | apply (emits_graph_query DescriptorIndex)
    | apply (emits_graph_query SupportingIndex)
    | apply (emits_execute_command ConstraintCreate)
    | apply (emits_graph_query NodeBulk)
    | apply (emits_graph_query NodeRow)
    | apply (emits_graph_query EdgeBulk)
    | apply (emits_graph_query EdgeRow)
    | apply (@emits_seq _ _ k); intros
    | apply (@emits_for_each _ k); intros
    | apply (emits_swallow k)
    | apply (@emits_try_except _ k); intros
    | match goal with
      | |- emits _ _ (if ?b then _ else _) => destruct b
      | |- emits _ _ (match ?x with _ => _ end) => destruct x
      end ]).

Lemma keeps_self_create_id_indexes :
  keeps_self (create_id_indexes_for_all_labels store fs).
Proof. unfold create_id_indexes_for_all_labels. method_frame. Qed.

Lemma keeps_self_create_indexes : keeps_self (create_indexes_from_csv store fs).
Proof.
  unfold create_indexes_from_csv, create_indexes_row. method_frame.
Qed.

Lemma keeps_self_supporting_indexes :
  keeps_self (create_supporting_indexes_for_constraints store fs).
Proof.
  unfold create_supporting_indexes_for_constraints, supporting_index_row.
  method_frame.
Qed.

Lemma keeps_self_create_constraints :
  keeps_self (create_constraints_from_csv store fs).
Proof.
  unfold create_constraints_from_csv, create_constraints_row. method_frame.
Qed.

Lemma keeps_self_load_nodes_batch p n :
  keeps_self (load_nodes_batch store fs py_repr p n).
Proof.
  unfold load_nodes_batch, load_node_batch, run_individually. method_frame.
Qed.

Lemma keeps_self_load_edges_batch p n :
  keeps_self (load_edges_batch store fs py_repr p n).
Proof.
  unfold load_edges_batch, load_edge_batch, run_individually. method_frame.
Qed.

Lemma keeps_self_single_graph n :
  keeps_self (_load_single_graph_csvs store fs py_repr n).
Proof.
  unfold _load_single_graph_csvs.
  pose proof keeps_self_create_id_indexes.
  pose proof keeps_self_create_indexes.
  pose proof keeps_self_supporting_indexes.
  pose proof keeps_self_create_constraints.
  pose proof keeps_self_load_nodes_batch.
  pose proof keeps_self_load_edges_batch.
  method_frame.
Qed.

Lemma emits_create_id_indexes :
  emits 0 0 (create_id_indexes_for_all_labels store fs).
Proof. unfold create_id_indexes_for_all_labels. method_phase 0. Qed.

Lemma emits_create_indexes : emits 1 1 (create_indexes_from_csv store fs).
Proof.
  unfold create_indexes_from_csv, create_indexes_row. method_phase 1.
Qed.

Lemma emits_supporting_indexes :
  emits 2 2 (create_supporting_indexes_for_constraints store fs).
Proof.
  unfold create_supporting_indexes_for_constraints, supporting_index_row.
  method_phase 2.
Qed.

Lemma emits_create_constraints :
  emits 3 3 (create_constraints_from_csv store fs).
Proof.
  unfold create_constraints_from_csv, create_constraints_row. method_phase 3.
Qed.

Lemma emits_load_nodes_batch p n :
  emits 4 4 (load_nodes_batch store fs py_repr p n).
Proof.
  unfold load_nodes_batch, load_node_batch, run_individually. method_phase 4.
Qed.

Lemma emits_load_edges_batch p n :
  emits 5 5 (load_edges_batch store fs py_repr p n).
Proof.
  unfold load_edges_batch, load_edge_batch, run_individually. method_phase 5.
Qed.

End MethodFacts.

(** ** Ordering of the phases of one pipeline run *)

Lemma strongly_sorted_nth {A} (R : A -> A -> Prop) (l : list A) :
  StronglySorted R l ->
  forall i j a b, i < j -> nth_error l i = Some a -> nth_error l j = Some b ->
                  R a b.
Proof.
  induction 1 as [| x l Hs IH Hx]; intros i j a b Hij Ha Hb.
  - destruct i; discriminate.
  - destruct j as [| j]; [lia |]. simpl in Hb.
    destruct i as [| i]; simpl in Ha.
    + inversion Ha; subst. apply nth_error_In in Hb.
      rewrite Forall_forall in Hx. auto.
    + apply (IH i j); auto. lia.
Qed.

Lemma emits_single_graph store fs py_repr batch_size :
  emits 0 5 (_load_single_graph_csvs store fs py_repr batch_size).
Proof.
  unfold _load_single_graph_csvs.
  apply emits_bind with (mid := 0); [lia | lia | apply emits_get_self |].
  intro me.
  apply emits_bind with (mid := 0); [lia | lia | apply emits_lift |].
  intro csv_files.
  apply emits_bind with (mid := 0);
    [lia | lia | apply emits_create_id_indexes |]. intros _.
  apply emits_weaken with (lo := 1) (hi := 5); [| lia | lia].
  apply emits_bind with (mid := 1);
    [lia | lia | apply emits_create_indexes |]. intros _.
  apply emits_weaken with (lo := 2) (hi := 5); [| lia | lia].
  apply emits_bind with (mid := 2);
    [lia | lia | apply emits_supporting_indexes |]. intros _.
  apply emits_weaken with (lo := 3) (hi := 5); [| lia | lia].
  apply emits_bind with (mid := 3);
    [lia | lia | apply emits_create_constraints |]. intros _.
  apply emits_weaken with (lo := 4) (hi := 5); [| lia | lia].
  apply emits_bind with (mid := 4); [lia | lia | |].
  - apply emits_for_each. intro node_file.
    apply emits_seq; [apply emits_get_self |]. intro me1.
    apply emits_load_nodes_batch.
  - intros _. apply emits_weaken with (lo := 5) (hi := 5); [| lia | lia].
    apply emits_for_each. intro edge_file.
    apply emits_seq; [apply emits_get_self |]. intro me2.
    apply emits_load_edges_batch.
Qed.

(** C6: in one run of [_load_single_graph_csvs] the requests are issued
    in pipeline order.  Whatever the store answers and whatever the
    directory holds, of any two requests of the run the earlier one never
    belongs to a later phase: id-index creation, descriptor-index
    creation, supporting-index creation and constraint creation come in
    that order and before every node write, and every node write comes
    before every edge write. *)
Theorem single_graph_phase_order store fs py_repr batch_size st :
  exists seg,
    issued (snd (_load_single_graph_csvs store fs py_repr batch_size st))
    = issued st ++ seg
    /\ forall i j a b,
        i < j -> nth_error seg i = Some a -> nth_error seg j = Some b ->
        phase (ev_origin a) <= phase (ev_origin b).
Proof.
  destruct (emits_single_graph store fs py_repr batch_size st)
    as (seg & Hseg & Hsorted & _).
  exists seg. split; [exact Hseg |].
  intros i j a b Hij Ha Hb.
  exact (strongly_sorted_nth phase_le seg Hsorted i j a b Hij Ha Hb).
Qed.

(** ** The source directory across tenants *)

Lemma keeps_csv_dir_of_self {A} (m : M A) : keeps_self m -> keeps_csv_dir m.
Proof. intros H st. now rewrite H. Qed.

Lemma keeps_csv_dir_for_each {A} (xs : list A) (body : A -> M unit) :
  (forall x, keeps_csv_dir (body x)) -> keeps_csv_dir (for_each xs body).
Proof.
  intro Hb. induction xs as [| x xs IH]; intro st; simpl; auto.
  unfold bind. specialize (Hb x st).
  destruct (body x st) as [[[] | e] st1]; simpl in *; auto.
  now rewrite IH.
Qed.

(** One tenant iteration: the pipeline runs on the tenant's directory
    and graph; whatever its outcome, the iteration returns and the source
    directory is set back. *)
Lemma load_tenant_run store fs py_repr batch_size tenant_dir st :
  load_tenant store fs py_repr batch_size tenant_dir st
  = (Ret tt,
     leave_tenant (csv_dir (self st))
       (snd (_load_single_graph_csvs store fs py_repr batch_size
               (enter_tenant st tenant_dir)))).
Proof.
  unfold load_tenant, bind, get_self, select_graph, set_csv_dir, try_finally,
    swallow, try_except, ret. simpl.
  change {| self := _; issued := issued st |} with (enter_tenant st tenant_dir).
  destruct (_load_single_graph_csvs store fs py_repr batch_size
              (enter_tenant st tenant_dir)) as [[[] | e] st_in]; reflexivity.
Qed.

Lemma load_tenant_keeps_csv_dir store fs py_repr batch_size tenant_dir :
  keeps_csv_dir (load_tenant store fs py_repr batch_size tenant_dir).
Proof. intro st. now rewrite load_tenant_run. Qed.

(** C10: the source-directory field survives multi-tenant orchestration.
    One tenant iteration runs the single-graph pipeline with [csv_dir]
    set to the tenant's directory and then, whether the pipeline returned
    or raised, returns with [csv_dir] set back to the value it had before
    the iteration; so every tenant starts from the root directory, and
    after [_load_multi_graph_csvs] the field has its initial value. *)
Theorem multi_graph_restores_csv_dir store fs py_repr batch_size st :
  (forall tenant_dir,
      load_tenant store fs py_repr batch_size tenant_dir st
      = (Ret tt,
         leave_tenant (csv_dir (self st))
           (snd (_load_single_graph_csvs store fs py_repr batch_size
                   (enter_tenant st tenant_dir))))
      /\ csv_dir (self (snd (load_tenant store fs py_repr batch_size
                               tenant_dir st)))
         = csv_dir (self st))
  /\ csv_dir (self (snd (_load_multi_graph_csvs store fs py_repr batch_size st)))
     = csv_dir (self st).
Proof.
  split.
  - intro tenant_dir. split.
    + apply load_tenant_run.
    + apply load_tenant_keeps_csv_dir.
  - unfold _load_multi_graph_csvs, bind, get_self, os_listdir, lift. simpl.
    destruct (fs_listdir fs (csv_dir (self st))) as [entries |]; simpl; auto.
    destruct (filter _ entries) as [| d ds] eqn:Hsub.
    + apply keeps_csv_dir_of_self. apply keeps_self_single_graph.
    + apply keeps_csv_dir_for_each. intro x. apply load_tenant_keeps_csv_dir.
Qed.

(** ** Requests issued by loops of guarded queries *)

Lemma after_nil st : after st [] = st.
Proof. destruct st as [l tr]. unfold after. simpl. now rewrite app_nil_r. Qed.

Lemma after_after st s1 s2 : after (after st s1) s2 = after st (s1 ++ s2).
Proof. unfold after. simpl. now rewrite app_assoc. Qed.

Lemma swallow_graph_query store o q p st g :
  graph (self st) = Some g ->
  swallow (graph_query store o q p) st
  = (Ret tt, after st [event o (GraphQuery g q p)]).
Proof.
  intro Hg. unfold swallow, try_except, graph_query. rewrite Hg.
  destruct (store (issued st) (GraphQuery g q p)); reflexivity.
Qed.

(** A loop whose body always returns, having sent the requests [ev x],
    returns having sent all of them in order. *)
Lemma for_each_after {A} (g : string) (body : A -> M unit)
      (ev : A -> list Event) (xs : list A) :
  (forall x st, graph (self st) = Some g ->
                body x st = (Ret tt, after st (ev x))) ->
  forall st, graph (self st) = Some g ->
             for_each xs body st = (Ret tt, after st (flat_map ev xs)).
Proof.
  intro Hb. induction xs as [| x xs IH]; intros st Hg; simpl.
  - unfold ret. now rewrite after_nil.
  - unfold bind. rewrite (Hb x st Hg).
    rewrite IH by exact Hg. now rewrite after_after.
Qed.

Lemma flat_map_singleton {A B} (f : A -> B) (l : list A) :
  flat_map (fun x => [f x]) l = map f l.
Proof. induction l as [| x l IH]; simpl; congruence. Qed.

Lemma run_individually_after store o parts st g :
  graph (self st) = Some g ->
  run_individually store o parts st
  = (Ret tt, after st (map (fun q => event o (GraphQuery g q NoParams)) parts)).
Proof.
  intro Hg. unfold run_individually.
  rewrite <- (flat_map_singleton (fun q => event o (GraphQuery g q NoParams))).
  apply (for_each_after g); [| exact Hg].
  intros q st' Hg'. now apply swallow_graph_query.
Qed.

(** ** Index creation from the descriptor file *)

Lemma truthy_false_iff s : PyStr.truthy s = false <-> s = EmptyString.
Proof. destruct s; simpl; split; intro H; auto; discriminate. Qed.

Lemma flat_map_list_prod {A B C} (f : A * B -> C) (xs : list A) (ys : list B) :
  flat_map (fun x => map (fun y => f (x, y)) ys) xs = map f (list_prod xs ys).
Proof.
  induction xs as [| x xs IH]; simpl; [reflexivity |].
  now rewrite map_app, map_map, IH.
Qed.

Lemma list_prod_nil_r {A B} (xs : list A) : list_prod xs (@nil B) = [].
Proof. induction xs; simpl; auto. Qed.

Lemma index_row_skipped_spec index :
  index_row_skipped index = true <->
  (PyStr.upper (row_get index "type" "") = "LOOKUP"
   \/ row_get index "uniqueness" "NON_UNIQUE" = "UNIQUE"
   \/ PyStr.strip (row_get index "labels" "") = ""
   \/ PyStr.strip (row_get index "properties" "") = "")%string.
Proof.
  unfold index_row_skipped.
  rewrite !orb_true_iff, !negb_true_iff, !truthy_false_iff, !String.eqb_eq.
  tauto.
Qed.

Lemma create_indexes_row_kept store st g index :
  graph (self st) = Some g ->
  index_row_skipped index = false ->
  create_indexes_row store index st
  = (Ret tt,
     after st (map (index_event g)
                 (list_prod (split_list (PyStr.strip (row_get index "labels" "")))
                            (split_list (PyStr.strip (row_get index "properties" "")))))).
Proof.
  intros Hg Hskip. unfold create_indexes_row. rewrite Hskip.
  rewrite <- flat_map_list_prod.
  apply (for_each_after g); [| exact Hg].
  intros label st1 Hg1.
  rewrite <- (flat_map_singleton (fun y => index_event g (label, y))).
  apply (for_each_after g); [| exact Hg1].
  intros prop st2 Hg2. now apply swallow_graph_query.
Qed.

(** C8, for a row of [indexes.csv] whose cells are all present as text,
    with a graph selected.  The row's kind is its [type] cell in upper
    case; its labels and properties are the [labels] and [properties]
    cells with surrounding blanks removed; its label and property lists
    are the [;]-separated segments of these, each stripped of blanks, the
    blank ones left out.  A row whose kind is LOOKUP, whose uniqueness is
    UNIQUE, or whose labels or properties are empty sends nothing and
    changes nothing.  Any other row sends, whatever the store answers,
    exactly the queries [CREATE INDEX ON :label(prop)], one for each pair
    of the cross product of the label list and the property list, label
    by label. *)
Theorem index_row_requests store st g index :
  graph (self st) = Some g ->
  let labels := PyStr.strip (row_get index "labels" "") in
  let properties := PyStr.strip (row_get index "properties" "") in
  let kind := PyStr.upper (row_get index "type" "") in
  let uniqueness := row_get index "uniqueness" "NON_UNIQUE" in
  let segments text :=
    filter PyStr.truthy (map PyStr.strip (PyStr.split ";" text)) in
  let create_index pair :=
    {| ev_origin := DescriptorIndex;
       ev_request :=
         GraphQuery g ("CREATE INDEX ON :" ++ fst pair ++ "(" ++ snd pair ++ ")")%string
                    NoParams |} in
  ((kind = "LOOKUP" \/ uniqueness = "UNIQUE"
    \/ labels = "" \/ properties = "")%string ->
   create_indexes_row store index st = (Ret tt, st))
  /\ ((kind <> "LOOKUP" -> uniqueness <> "UNIQUE" ->
       labels <> "" -> properties <> "" ->
       create_indexes_row store index st
       = (Ret tt,
          {| self := self st;
             issued := issued st
                       ++ map create_index
                            (list_prod (segments labels) (segments properties)) |}))%string).
Proof.
  intros Hg labels properties kind uniqueness segments create_index. split.
  - intro Hskip. apply index_row_skipped_spec in Hskip.
    unfold create_indexes_row. now rewrite Hskip.
  - intros Hk Hu Hl Hp.
    destruct (index_row_skipped index) eqn:Hskip.
    + apply index_row_skipped_spec in Hskip.
      destruct Hskip as [H | [H | [H | H]]]; contradiction.
    + now rewrite (create_indexes_row_kept store st g index Hg Hskip).
Qed.

(** The literal reading of C8 fails, in three ways.  A row whose [type]
    cell is [lookup], in lower case, is not of kind LOOKUP as written, is
    not UNIQUE and has a label and a property, yet sends nothing.  A row
    with the labels [Person;;Company] has three [;]-delimited label
    segments and one property, yet sends two queries, not three.  A row
    whose labels are two blanks has labels that are not empty, yet sends
    nothing. *)
Lemma index_row_literal_reading_fails :
  (row_get Scenario.lookup_index "type" "" <> "LOOKUP"
   /\ row_get Scenario.lookup_index "uniqueness" "NON_UNIQUE" <> "UNIQUE"
   /\ PyStr.split ";" (row_get Scenario.lookup_index "labels" "") = ["Person"]
   /\ PyStr.split ";" (row_get Scenario.lookup_index "properties" "") = ["name"]
   /\ create_indexes_row Scenario.accepting Scenario.lookup_index
        Scenario.single_start
      = (Ret tt, Scenario.single_start))%string
  /\ (PyStr.split ";" (row_get Scenario.gapped_index "labels" "")
      = ["Person"; ""; "Company"]
      /\ PyStr.split ";" (row_get Scenario.gapped_index "properties" "") = ["name"]
      /\ create_indexes_row Scenario.accepting Scenario.gapped_index
           Scenario.single_start
         = (Ret tt,
            after Scenario.single_start
              [event DescriptorIndex
                 (GraphQuery "g" "CREATE INDEX ON :Person(name)" NoParams);
               event DescriptorIndex
                 (GraphQuery "g" "CREATE INDEX ON :Company(name)" NoParams)]))%string
  /\ (row_get Scenario.blank_index "labels" "" <> ""
      /\ row_get Scenario.blank_index "properties" "" <> ""
      /\ PyStr.upper (row_get Scenario.blank_index "type" "") <> "LOOKUP"
      /\ row_get Scenario.blank_index "uniqueness" "NON_UNIQUE" <> "UNIQUE"
      /\ create_indexes_row Scenario.accepting Scenario.blank_index
           Scenario.single_start
         = (Ret tt, Scenario.single_start))%string.
Proof.
  split; [| split].
  - split; [discriminate |]. split; [discriminate |]. repeat split; reflexivity.
  - repeat split; reflexivity.
  - split; [discriminate |]. split; [discriminate |].
    split; [vm_compute; discriminate |]. split; [discriminate | reflexivity].
Qed.

(** ** Translation of text rows *)

Lemma node_convert_raise_iff value :
  node_convert value = Raise ValueError <->
  PyStr.isdigit value = false
  /\ PyStr.isdigit (PyStr.lstrip_char "-" (PyStr.replace_n "." "" 1 value)) = true
  /\ py_float value = None.
Proof.
  unfold node_convert. destruct (PyStr.isdigit value) eqn:Hd.
  - rewrite (py_int_digits _ Hd). simpl. split; [discriminate | intros (H & _)].
    discriminate H.
  - destruct (PyStr.isdigit (PyStr.lstrip_char _ _)).
    + destruct (py_float value); simpl; split; auto; try discriminate.
      intros (_ & _ & H). discriminate H.
    + split; [discriminate | intros (_ & H & _)]. discriminate H.
Qed.

Lemma edge_properties_total row :
  forall acc, exists props, edge_properties row acc = Ret props.
Proof.
  induction row as [| [key value] rest IH]; intro acc;
    cbn [edge_properties]; [eauto |].
  destruct (negb (key_in key edge_reserved) && PyStr.truthy value); auto.
  destruct (edge_convert_total value) as [v Hv]. rewrite Hv. simpl. auto.
Qed.

Lemma edge_query_parts_total py_repr merge rel_type batch :
  exists parts, edge_query_parts py_repr merge rel_type batch = Ret parts.
Proof.
  induction batch as [| row batch [parts IH]]; simpl; [eauto |].
  unfold edge_row_query. destruct (edge_row_dropped row); simpl.
  - rewrite IH. simpl. eauto.
  - destruct (edge_properties_total row []) as [props Hp]. rewrite Hp. simpl.
    rewrite IH. simpl. eauto.
Qed.

(** ** One batch: bulk submission and fallback *)

Lemma bulk_then_fallback store o_bulk o_row q p parts st g :
  graph (self st) = Some g ->
  try_except (graph_query store o_bulk q p)
             (fun _ => run_individually store o_row parts) st
  = (Ret tt,
     after st (batch_events store o_bulk o_row st g (GraphQuery g q p) parts)).
Proof.
  intro Hg. unfold try_except, graph_query, batch_events. rewrite Hg.
  destruct (store (issued st) (GraphQuery g q p)).
  - reflexivity.
  - change (record o_bulk (GraphQuery g q p) st)
      with (after st [event o_bulk (GraphQuery g q p)]).
    rewrite (run_individually_after store o_row parts _ g) by exact Hg.
    now rewrite after_after.
Qed.

Lemma load_node_batch_run store py_repr label batch st g parts data :
  graph (self st) = Some g ->
  node_query_parts py_repr (merge_mode (self st)) label batch = Ret parts ->
  node_batch_data batch = Ret data ->
  load_node_batch store py_repr label batch st
  = (Ret tt,
     after st (batch_events store NodeBulk NodeRow st g
                 (GraphQuery g (node_unwind_query (merge_mode (self st)) label)
                             (NodeBatch data))
                 parts)).
Proof.
  intros Hg Hparts Hdata.
  rewrite <- (bulk_then_fallback store NodeBulk NodeRow _ _ parts st g Hg).
  unfold load_node_batch, bind, get_self, lift, try_except.
  rewrite Hparts, Hdata. reflexivity.
Qed.

Lemma load_edge_batch_run store py_repr rel_type batch st g parts data q :
  graph (self st) = Some g ->
  edge_query_parts py_repr (merge_mode (self st)) rel_type batch = Ret parts ->
  edge_batch_data batch = Ret data ->
  edge_unwind_query (merge_mode (self st)) rel_type data = Some q ->
  load_edge_batch store py_repr rel_type batch st
  = (Ret tt,
     after st (batch_events store EdgeBulk EdgeRow st g
                 (GraphQuery g q (EdgeBatch data)) parts)).
Proof.
  intros Hg Hparts Hdata Hq.
  rewrite <- (bulk_then_fallback store EdgeBulk EdgeRow _ _ parts st g Hg).
  unfold load_edge_batch, bind, get_self, lift, try_except.
  rewrite Hparts, Hdata. simpl. rewrite Hq. reflexivity.
Qed.

Lemma node_query_parts_rows py_repr merge label batch parts :
  node_query_parts py_repr merge label batch = Ret parts ->
  Forall2 (fun row q => node_row_query py_repr merge label row = Ret q)
          batch parts.
Proof.
  revert parts. induction batch as [| row batch IH]; intros parts H; simpl in H.
  - inversion H. constructor.
  - destruct (node_row_query py_repr merge label row) as [q | e] eqn:Hrow;
      simpl in H; [| discriminate].
    destruct (node_query_parts py_repr merge label batch) as [qs | e];
      simpl in H; [| discriminate].
    inversion H; subst. constructor; auto.
Qed.

Lemma edge_row_query_none py_repr merge rel_type row :
  edge_row_query py_repr merge rel_type row = Ret None <->
  edge_row_dropped row = true.
Proof.
  unfold edge_row_query. destruct (edge_row_dropped row); split; auto.
  - intro H. destruct (edge_properties row []); simpl in H; discriminate.
  - discriminate.
Qed.

Lemma edge_query_parts_rows py_repr merge rel_type batch parts :
  edge_query_parts py_repr merge rel_type batch = Ret parts ->
  Forall2 (fun row q => edge_row_query py_repr merge rel_type row = Ret (Some q))
          (filter (fun row => negb (edge_row_dropped row)) batch) parts.
Proof.
  revert parts. induction batch as [| row batch IH]; intros parts H; simpl in H.
  - inversion H. constructor.
  - destruct (edge_row_query py_repr merge rel_type row) as [[q |] | e] eqn:Hrow;
      simpl in H; try discriminate;
      destruct (edge_query_parts py_repr merge rel_type batch) as [qs | e];
      simpl in H; try discriminate; inversion H; subst; simpl.
    + destruct (edge_row_dropped row) eqn:Hd.
      * apply (edge_row_query_none py_repr merge rel_type) in Hd. congruence.
      * simpl. constructor; auto.
    + apply edge_row_query_none in Hrow. rewrite Hrow. simpl. auto.
Qed.

(** C5: a refused bulk write is replayed row by row and aborts nothing.
    For a node batch and for an edge batch alike: when the store refuses
    the bulk request, the batch step returns normally, having sent, after
    the bulk request, every per-row query of the batch in order, one per
    row (for edges, one per row that has both a source and a target),
    whatever the store answers to each of them; and the batch loop goes
    on with the remaining batches. *)
Theorem bulk_failure_falls_back store py_repr :
  (forall st g label batch parts data,
      graph (self st) = Some g ->
      node_query_parts py_repr (merge_mode (self st)) label batch = Ret parts ->
      node_batch_data batch = Ret data ->
      let bulk := GraphQuery g (node_unwind_query (merge_mode (self st)) label)
                             (NodeBatch data) in
      store (issued st) bulk = false ->
      let st' := after st (event NodeBulk bulk :: row_events NodeRow g parts) in
      load_node_batch store py_repr label batch st = (Ret tt, st')
      /\ Forall2 (fun row q =>
                    node_row_query py_repr (merge_mode (self st)) label row = Ret q)
                 batch parts
      /\ forall rest,
          for_each (batch :: rest) (load_node_batch store py_repr label) st
          = for_each rest (load_node_batch store py_repr label) st')
  /\
  (forall st g rel_type batch data unwind_query,
      graph (self st) = Some g ->
      edge_batch_data batch = Ret data ->
      edge_unwind_query (merge_mode (self st)) rel_type data = Some unwind_query ->
      let bulk := GraphQuery g unwind_query (EdgeBatch data) in
      store (issued st) bulk = false ->
      exists parts,
        let st' := after st (event EdgeBulk bulk :: row_events EdgeRow g parts) in
        edge_query_parts py_repr (merge_mode (self st)) rel_type batch = Ret parts
        /\ load_edge_batch store py_repr rel_type batch st = (Ret tt, st')
        /\ Forall2 (fun row q =>
                      edge_row_query py_repr (merge_mode (self st)) rel_type row
                      = Ret (Some q))
                   (filter (fun row => negb (edge_row_dropped row)) batch) parts
        /\ forall rest,
            for_each (batch :: rest) (load_edge_batch store py_repr rel_type) st
            = for_each rest (load_edge_batch store py_repr rel_type) st').
Proof.
  split.
  - intros st g label batch parts data Hg Hparts Hdata bulk Hfail st'.
    assert (Hrun : load_node_batch store py_repr label batch st = (Ret tt, st')).
    { rewrite (load_node_batch_run store py_repr label batch st g parts data)
        by assumption.
      unfold batch_events. fold bulk. now rewrite Hfail. }
    split; [exact Hrun |]. split.
    + now apply node_query_parts_rows.
    + intro rest. simpl. unfold bind. now rewrite Hrun.
  - intros st g rel_type batch data q Hg Hdata Hq bulk Hfail.
    destruct (edge_query_parts_total py_repr (merge_mode (self st)) rel_type batch)
      as [parts Hparts].
    exists parts. intro st'.
    assert (Hrun : load_edge_batch store py_repr rel_type batch st = (Ret tt, st')).
    { rewrite (load_edge_batch_run store py_repr rel_type batch st g parts data q)
        by assumption.
      unfold batch_events. fold bulk. now rewrite Hfail. }
    split; [exact Hparts |]. split; [exact Hrun |]. split.
    + now apply edge_query_parts_rows.
    + intro rest. simpl. unfold bind. now rewrite Hrun.
Qed.


(** ** Rows without identifiers *)

Lemma obind_ret_id {A} (o : Outcome A) : obind o (fun a => Ret a) = o.
Proof. destruct o; reflexivity. Qed.

Lemma edge_row_dropped_iff row :
  edge_row_dropped row = true <->
  (row_get row "source" "" = "" \/ row_get row "target" "" = "")%string.
Proof.
  unfold edge_row_dropped.
  rewrite orb_true_iff, !negb_true_iff, !truthy_false_iff. tauto.
Qed.

Lemma edge_batch_data_skips row pre post :
  edge_row_dropped row = true ->
  edge_batch_data (pre ++ row :: post) = edge_batch_data (pre ++ post).
Proof.
  intro Hd. induction pre as [| r pre IH]; simpl.
  - unfold edge_record. rewrite Hd. simpl. apply obind_ret_id.
  - now rewrite IH.
Qed.

Lemma edge_query_parts_skips py_repr merge rel_type row pre post :
  edge_row_dropped row = true ->
  edge_query_parts py_repr merge rel_type (pre ++ row :: post)
  = edge_query_parts py_repr merge rel_type (pre ++ post).
Proof.
  intro Hd. induction pre as [| r pre IH]; simpl.
  - unfold edge_row_query. rewrite Hd. simpl. apply obind_ret_id.
  - now rewrite IH.
Qed.

(** An edge row whose [source] or [target] is missing or empty is
    silently dropped: it contributes no record to the bulk payload and no
    fallback query, and a batch with it behaves, in result and in
    requests sent, exactly like the batch without it. *)
Lemma edge_row_without_endpoint_dropped store py_repr edge_row :
  (row_get edge_row "source" "" = "" \/ row_get edge_row "target" "" = "")%string ->
  (forall merge rel_type,
      edge_record edge_row = Ret None
      /\ edge_row_query py_repr merge rel_type edge_row = Ret None)
  /\ (forall rel_type pre post st,
         load_edge_batch store py_repr rel_type (pre ++ edge_row :: post) st
         = load_edge_batch store py_repr rel_type (pre ++ post) st).
Proof.
  intro He. apply edge_row_dropped_iff in He. repeat split.
  - unfold edge_record. now rewrite He.
  - unfold edge_row_query. now rewrite He.
  - intros rel_type pre post st. unfold load_edge_batch, bind, get_self, lift.
    now rewrite edge_batch_data_skips, edge_query_parts_skips.
Qed.

(** C4 fails on the node side: a node row whose [id] is empty is not
    dropped.  The node loader has no guard like the edge loader's; the
    row [id = "", labels = Person, name = Bob] is translated like any
    other row, and the bulk request of its batch carries a record for it
    with the empty string as identifier, so a node with [id: ''] is
    written. *)
Theorem node_row_without_id_is_written :
  row_get Scenario.nameless "id" "" = ""%string
  /\ node_record Scenario.nameless
     = Ret {| nr_id := PyString "";
              nr_props := [("name", PyString "Bob")]%string |}
  /\ node_row_query Scenario.plain_repr false "Person" Scenario.nameless
     = Ret "CREATE (:Person {id: '', name: 'Bob'})"%string
  /\ load_node_batch Scenario.accepting Scenario.plain_repr "Person"
       [Scenario.nameless] Scenario.single_start
     = (Ret tt,
        after Scenario.single_start
          [event NodeBulk
             (GraphQuery "g"
                "UNWIND $batch AS row CREATE (n:Person) SET n.id = row.id, n += row.props"
                (NodeBatch
                   [{| nr_id := PyString "";
                       nr_props := [("name", PyString "Bob")]%string |}]))]).
Proof. repeat split; reflexivity. Qed.

(** ** The batch theorems on concrete rows *)

(** A descriptor row with two labels and two properties: four queries. *)
Lemma index_row_requests_witness :
  graph (self Scenario.single_start) = Some "g"%string
  /\ create_indexes_row Scenario.accepting Scenario.name_index Scenario.single_start
     = (Ret tt,
        after Scenario.single_start
          [event DescriptorIndex
             (GraphQuery "g" "CREATE INDEX ON :Person(name)" NoParams);
           event DescriptorIndex
             (GraphQuery "g" "CREATE INDEX ON :Person(age)" NoParams);
           event DescriptorIndex
             (GraphQuery "g" "CREATE INDEX ON :Company(name)" NoParams);
           event DescriptorIndex
             (GraphQuery "g" "CREATE INDEX ON :Company(age)" NoParams)]%string).
Proof.
  split; [reflexivity |].
  apply (proj2 (index_row_requests Scenario.accepting Scenario.single_start
                  "g"%string Scenario.name_index eq_refl));
    vm_compute; discriminate.
Defined.

(** A node batch and an edge batch against a store that refuses every
    request. *)
Lemma bulk_failure_falls_back_witness :
  load_node_batch Scenario.refusing Scenario.plain_repr "Person"
    [Scenario.alice; Scenario.nameless] Scenario.single_start
  = (Ret tt,
     after Scenario.single_start
       [event NodeBulk
          (GraphQuery "g"
             "UNWIND $batch AS row CREATE (n:Person) SET n.id = row.id, n += row.props"
             (NodeBatch
                [{| nr_id := PyInt 1;
                    nr_props := [("name", PyString "Alice"); ("age", PyInt 30)]%string |};
                 {| nr_id := PyString "";
                    nr_props := [("name", PyString "Bob")]%string |}]));
        event NodeRow
          (GraphQuery "g" "CREATE (:Person {id: 1, name: 'Alice', age: 30})" NoParams);
        event NodeRow
          (GraphQuery "g" "CREATE (:Person {id: '', name: 'Bob'})" NoParams)])
  /\ exists bulk,
      load_edge_batch Scenario.refusing Scenario.plain_repr "KNOWS"
        [Scenario.knows; Scenario.dangling] Scenario.single_start
      = (Ret tt,
         after Scenario.single_start
           [event EdgeBulk bulk;
            event EdgeRow
              (GraphQuery "g"
                 "MATCH (a:Person {id: 1}), (b:Person {id: 2}) CREATE (a)-[:KNOWS {weight: <float>}]->(b)"
                 NoParams)]).
Proof.
  split.
  - refine (proj1 (proj1 (bulk_failure_falls_back Scenario.refusing
                            Scenario.plain_repr)
                     Scenario.single_start "g"%string "Person"%string
                     [Scenario.alice; Scenario.nameless] _ _
                     eq_refl eq_refl eq_refl eq_refl)).
  - destruct (proj2 (bulk_failure_falls_back Scenario.refusing
                      Scenario.plain_repr)
               Scenario.single_start "g"%string "KNOWS"%string
               [Scenario.knows; Scenario.dangling] _ _
               eq_refl eq_refl eq_refl eq_refl) as (parts & Hparts & Hrun & _).
    eexists. rewrite Hrun.
    assert (E : parts
                = ["MATCH (a:Person {id: 1}), (b:Person {id: 2}) CREATE (a)-[:KNOWS {weight: <float>}]->(b)"%string])
      by (vm_compute in Hparts; congruence).
    rewrite E. reflexivity.
Defined.


(** ** Entries of the bound property payloads *)

Lemma dict_set_in k v k' v' d :
  In (k, v) (dict_set k' v' d) -> (k, v) = (k', v') \/ In (k, v) d.
Proof.
  induction d as [| [k0 v0] d IH]; simpl.
  - intros [H | []]. left. now symmetry.
  - destruct (String.eqb k0 k'); simpl.
    + intros [H | H]; [left; now symmetry | right; now right].
    + intros [H | H]; [right; now left |].
      destruct (IH H) as [E | E]; [now left | right; now right].
Qed.

Lemma node_convert_not_none value : node_convert value <> Ret PyNone.
Proof.
  unfold node_convert.
  destruct (PyStr.isdigit value).
  - destruct (PyStr.py_int value); simpl; discriminate.
  - destruct (PyStr.isdigit _).
    + destruct (py_float value); simpl; discriminate.
    + discriminate.
Qed.

(** Every entry of a node payload comes from a non-empty cell of a field
    other than [id] and [labels], under the field's own name. *)
Lemma node_properties_entries row :
  forall acc props,
    node_properties row acc = Ret props ->
    forall k v, In (k, v) props ->
      In (k, v) acc
      \/ (key_in k ["id"; "labels"]%string = false
          /\ exists value, In (k, value) row /\ value <> EmptyString
                           /\ node_convert value = Ret v).
Proof.
  induction row as [| [key value] rest IH]; intros acc props H k v Hin;
    cbn [node_properties] in H.
  - inversion H; subst. now left.
  - destruct (key_in key ["id"; "labels"]%string) eqn:Hres; simpl in H.
    + destruct (IH _ _ H k v Hin) as [Ha | (Hk & value' & Hv & Hne & Hc)];
        [now left | right].
      split; [exact Hk |]. exists value'. repeat split; auto. now right.
    + destruct (PyStr.truthy value) eqn:Ht; simpl in H.
      * destruct (node_convert value) as [v0 | e] eqn:Hconv; simpl in H;
          [| discriminate].
        destruct (IH _ _ H k v Hin) as [Ha | (Hk & value' & Hv & Hne & Hc)].
        -- apply dict_set_in in Ha. destruct Ha as [E | Ha]; [| now left].
           inversion E; subst. right. split; [exact Hres |].
           exists value. repeat split; auto; [now left |].
           intro E0. subst. discriminate.
        -- right. split; [exact Hk |]. exists value'. repeat split; auto.
           now right.
      * destruct (IH _ _ H k v Hin) as [Ha | (Hk & value' & Hv & Hne & Hc)];
          [now left | right].
        split; [exact Hk |]. exists value'. repeat split; auto. now right.
Qed.

(** The node half of the payload invariant: no [id], no [labels], no
    explicit null, nothing from an empty cell. *)
Lemma node_payload_entries row rec k v :
  node_record row = Ret rec -> In (k, v) (nr_props rec) ->
  k <> "id"%string /\ k <> "labels"%string /\ v <> PyNone
  /\ exists value, In (k, value) row /\ value <> EmptyString.
Proof.
  unfold node_record. intros H Hin.
  destruct (node_properties row []) as [props |] eqn:Hp; simpl in H;
    [| discriminate].
  destruct (id_value (row_get row "id" "")); simpl in H; [| discriminate].
  inversion H; subst; simpl in Hin.
  destruct (node_properties_entries row [] props Hp k v Hin)
    as [[] | (Hk & value & Hv & Hne & Hc)].
  repeat split.
  - intro E; subst; discriminate.
  - intro E; subst; discriminate.
  - intro E; subst. exact (node_convert_not_none value Hc).
  - exists value. now split.
Qed.

(** Every entry of an edge payload comes from a non-empty cell of a
    field outside the reserved list, under the field's cleaned name. *)
Lemma edge_properties_entries row :
  forall acc props,
    edge_properties row acc = Ret props ->
    forall k v, In (k, v) props ->
      In (k, v) acc
      \/ exists key value,
          In (key, value) row /\ k = clean_key key
          /\ key_in key edge_reserved = false /\ value <> EmptyString
          /\ edge_convert value = Ret v.
Proof.
  induction row as [| [key value] rest IH]; intros acc props H k v Hin;
    cbn [edge_properties] in H.
  - inversion H; subst. now left.
  - destruct (key_in key edge_reserved) eqn:Hres; simpl in H.
    + destruct (IH _ _ H k v Hin) as [Ha | (key' & value' & Hv & Hrest)];
        [now left | right].
      exists key', value'. split; [now right | exact Hrest].
    + destruct (PyStr.truthy value) eqn:Ht; simpl in H.
      * destruct (edge_convert value) as [v0 | e] eqn:Hconv; simpl in H;
          [| discriminate].
        destruct (IH _ _ H k v Hin) as [Ha | (key' & value' & Hv & Hrest)].
        -- apply dict_set_in in Ha. destruct Ha as [E | Ha]; [| now left].
           inversion E; subst. right. exists key, value.
           repeat split; auto; [now left |].
           intro E0. subst. discriminate.
        -- right. exists key', value'. split; [now right | exact Hrest].
      * destruct (IH _ _ H k v Hin) as [Ha | (key' & value' & Hv & Hrest)];
          [now left | right].
        exists key', value'. split; [now right | exact Hrest].
Qed.

(** ** Where the code departs from its specification *)

(** C1: in multi-tenant mode the constraint command still names the base
    graph.  With tenants [tenant_a] and [tenant_b] under the root and
    base graph [g], the pipeline of [tenant_a] sends its supporting index
    to [g_a] but its [GRAPH.CONSTRAINT CREATE] to [g]. *)
Theorem tenant_constraint_targets_base_graph :
  let run := load_all_csvs Scenario.accepting Scenario.tenant_fs
               Scenario.plain_repr 5000 Scenario.multi_start in
  issued (snd run)
  = [event SupportingIndex
       (GraphQuery "g_a" "CREATE INDEX FOR (n:Person) ON (n.id)" NoParams);
     event ConstraintCreate
       (ExecCommand ["GRAPH.CONSTRAINT"; "CREATE"; "g"; "UNIQUE"; "NODE";
                     "Person"; "PROPERTIES"; "1"; "id"]%string)]
  /\ map (fun e => request_target (ev_request e)) (issued (snd run))
     = [Some "g_a"; Some "g"]%string.
Proof. split; vm_compute; reflexivity. Qed.

(** C2: node value typing raises on some cells.  A cell with a doubled
    leading minus, or with a dot before the minus, passes the loader's
    digit test and then fails in [float]; the [ValueError] leaves the
    batch step before anything is sent. *)
Theorem node_typing_raises :
  node_typed_value "--5" = Raise ValueError
  /\ node_typed_value ".-5" = Raise ValueError
  /\ load_node_batch Scenario.accepting Scenario.plain_repr "Account"
       [Scenario.overdrawn] Scenario.single_start
     = (Raise ValueError, Scenario.single_start).
Proof. repeat split; vm_compute; reflexivity. Qed.

(** C3: the node loader and the edge loader type the cell [-5]
    differently: a float for the node loader, a string for the edge
    loader. *)
Theorem node_edge_typing_differ :
  node_typed_value "-5" = Ret (PyFloatV (FFinite true 5 0))
  /\ edge_typed_value "-5" = Ret (PyString "-5").
Proof. split; vm_compute; reflexivity. Qed.

(** C9: a reserved key can enter an edge payload.  The column
    [type:type] is not in the reserved list, so it passes the filter, and
    is then collapsed to the reserved key [type]. *)
Theorem edge_payload_holds_reserved_key :
  edge_batch_data [Scenario.typed_edge]
  = Ret [{| er_source_id := PyInt 1; er_target_id := PyInt 2;
            er_source_label := ""; er_target_label := "";
            er_props := [("type", PyString "x")]%string |}]
  /\ key_in "type" edge_reserved = true.
Proof. split; vm_compute; reflexivity. Qed.

(** ** The schema steps and the store *)

Lemma returns_ret : returns (ret tt).
Proof. intro st. reflexivity. Qed.

Lemma returns_try_except (body : M unit) (handler : Exn -> M unit) :
  (forall e, returns (handler e)) -> returns (try_except body handler).
Proof.
  intros Hh st. unfold try_except.
  destruct (body st) as [[[] | e] st1]; [reflexivity | apply Hh].
Qed.

Lemma returns_swallow (m : M unit) : returns (swallow m).
Proof. apply returns_try_except. intro. apply returns_ret. Qed.

Lemma returns_seq (m k : M unit) :
  returns m -> returns k -> returns (bind m (fun _ => k)).
Proof.
  intros Hm Hk st. unfold bind. specialize (Hm st).
  destruct (m st) as [[[] | e] st1]; simpl in Hm; [apply Hk | discriminate].
Qed.

Lemma returns_for_each {A} (xs : list A) (body : A -> M unit) :
  (forall x, returns (body x)) -> returns (for_each xs body).
Proof.
  intro Hb. induction xs as [| x xs IH]; simpl.
  - apply returns_ret.
  - apply returns_seq; auto.
Qed.

Lemma returns_after_get_self (k : Loader -> M unit) :
  (forall me, returns (k me)) -> returns (bind get_self k).
Proof. intros Hk st. unfold bind, get_self. apply Hk. Qed.

Lemma returns_after_read fs p (k : list Row -> M unit) :
  (forall rows, returns (k rows)) -> returns (bind (read_csv_file fs p) k).
Proof. intros Hk st. unfold bind, read_csv_file, ret. apply Hk. Qed.

Lemma returns_create_indexes_row store index :
  returns (create_indexes_row store index).
Proof.
  unfold create_indexes_row. destruct (index_row_skipped index).
  - apply returns_ret.
  - apply returns_for_each. intro label. apply returns_for_each. intro prop.
    apply returns_swallow.
Qed.

Lemma returns_supporting_index_row store constraint :
  returns (supporting_index_row store constraint).
Proof.
  unfold supporting_index_row. destruct (_ || _).
  - apply returns_ret.
  - apply returns_for_each. intro label. apply returns_swallow.
Qed.

Lemma returns_create_constraints_row store constraint :
  returns (create_constraints_row store constraint).
Proof.
  unfold create_constraints_row. destruct (_ || _).
  - apply returns_ret.
  - apply returns_for_each. intro label. apply returns_swallow.
Qed.

Lemma returns_create_indexes store fs : returns (create_indexes_from_csv store fs).
Proof.
  unfold create_indexes_from_csv. apply returns_after_get_self. intro me.
  destruct (negb _); [apply returns_ret |].
  apply returns_after_read. intro rows. apply returns_for_each.
  intro index. apply returns_create_indexes_row.
Qed.

Lemma returns_supporting_indexes store fs :
  returns (create_supporting_indexes_for_constraints store fs).
Proof.
  unfold create_supporting_indexes_for_constraints.
  apply returns_after_get_self. intro me.
  destruct (negb _); [apply returns_ret |].
  apply returns_after_read. intros [| row rows]; [apply returns_ret |].
  apply returns_for_each. intro c. apply returns_supporting_index_row.
Qed.

Lemma returns_create_constraints store fs :
  returns (create_constraints_from_csv store fs).
Proof.
  unfold create_constraints_from_csv. apply returns_after_get_self. intro me.
  destruct (negb _); [apply returns_ret |].
  apply returns_after_read. intros [| row rows]; [apply returns_ret |].
  apply returns_for_each. intro c. apply returns_create_constraints_row.
Qed.

Lemma for_each_ext {A} (xs : list A) (f g : A -> M unit) :
  (forall x st, f x st = g x st) ->
  forall st, for_each xs f st = for_each xs g st.
Proof.
  intro H. induction xs as [| x xs IH]; intro st; simpl; [reflexivity |].
  unfold bind. rewrite H. destruct (g x st) as [[[] | e] st1]; auto.
Qed.

Lemma swallow_graph_query_any store1 store2 o q p st :
  swallow (graph_query store1 o q p) st = swallow (graph_query store2 o q p) st.
Proof.
  unfold swallow, try_except, graph_query.
  destruct (graph (self st)) as [g |]; [| reflexivity].
  destruct (store1 _ _), (store2 _ _); reflexivity.
Qed.

Lemma swallow_command_any store1 store2 (unique : bool) o
      (args : Loader -> list string) st :
  swallow (if unique then bind get_self (fun me => execute_command store1 o (args me))
           else ret tt) st
  = swallow (if unique then bind get_self (fun me => execute_command store2 o (args me))
             else ret tt) st.
Proof.
  destruct unique; [| reflexivity].
  unfold swallow, try_except, bind, get_self, execute_command.
  destruct (store1 _ _), (store2 _ _); reflexivity.
Qed.

(** X1: the schema steps do not depend on what the store answers.  For
    any two stores, each of the four schema steps does the same from the
    same loader state: it sends the same requests in the same order and
    ends the same way.  A refused or failing index or constraint request
    changes neither what is attempted next nor whether the step returns.
    [create_id_indexes_for_all_labels] fails to return exactly when the
    source directory exists but cannot be listed. *)
Theorem schema_steps_ignore_store_answers store1 store2 fs st :
  create_id_indexes_for_all_labels store1 fs st
  = create_id_indexes_for_all_labels store2 fs st
  /\ create_indexes_from_csv store1 fs st = create_indexes_from_csv store2 fs st
  /\ create_supporting_indexes_for_constraints store1 fs st
     = create_supporting_indexes_for_constraints store2 fs st
  /\ create_constraints_from_csv store1 fs st
     = create_constraints_from_csv store2 fs st
  /\ (fst (create_id_indexes_for_all_labels store1 fs st) <> Ret tt <->
      fs_exists fs (csv_dir (self st)) = true
      /\ fs_listdir fs (csv_dir (self st)) = None).
Proof.
  split; [| split; [| split; [| split; [| split]]]].
  - unfold create_id_indexes_for_all_labels, bind, get_self, os_listdir, lift.
    destruct (negb _); [reflexivity |].
    destruct (fs_listdir fs (csv_dir (self st))) as [names |]; [| reflexivity].
    apply for_each_ext. intros f s. apply swallow_graph_query_any.
  - unfold create_indexes_from_csv, bind, get_self, read_csv_file, ret.
    destruct (negb _); [reflexivity |].
    apply for_each_ext. intros index s. unfold create_indexes_row.
    destruct (index_row_skipped index); [reflexivity |].
    apply for_each_ext. intros label s1. apply for_each_ext. intros prop s2.
    apply swallow_graph_query_any.
  - unfold create_supporting_indexes_for_constraints, bind, get_self,
      read_csv_file, ret.
    destruct (negb _); [reflexivity |].
    destruct (match fs_rows fs _ with Some rows => rows | None => [] end)
      as [| c cs]; [reflexivity |].
    apply for_each_ext. intros x s. unfold supporting_index_row.
    destruct (_ || _); [reflexivity |].
    apply for_each_ext. intros label s1. apply swallow_graph_query_any.
  - unfold create_constraints_from_csv, bind, get_self, read_csv_file, ret.
    destruct (negb _); [reflexivity |].
    destruct (match fs_rows fs _ with Some rows => rows | None => [] end)
      as [| c cs]; [reflexivity |].
    apply for_each_ext. intros x s. unfold create_constraints_row.
    destruct (_ || _); [reflexivity |].
    apply for_each_ext. intros label s1.
    apply (swallow_command_any store1 store2 _ ConstraintCreate
             (fun me => constraint_command (graph_name me) _ label _)).
  - unfold create_id_indexes_for_all_labels, bind, get_self, os_listdir, lift.
    simpl. destruct (fs_exists fs (csv_dir (self st))); simpl.
    + destruct (fs_listdir fs (csv_dir (self st))) as [names |]; simpl.
      * intro H. exfalso. apply H.
        apply (returns_for_each (filter is_node_file names)). intro f.
        apply returns_swallow.
      * intros _. now split.
    + intro H. now exfalso.
  - intros [He Hl].
    unfold create_id_indexes_for_all_labels, bind, get_self, os_listdir, lift.
    simpl. rewrite He, Hl. simpl. discriminate.
Qed.

(** ** Where requests go *)

Lemma routes_silent {A} (m : M A) :
  (forall st, snd (m st) = st) -> routes m.
Proof.
  intros H st. rewrite H. split; [reflexivity |].
  exists []. rewrite app_nil_r. split; [reflexivity | constructor].
Qed.

Lemma routes_ret {A} (a : A) : routes (ret a).
Proof. now apply routes_silent. Qed.

Lemma routes_lift {A} (o : Outcome A) : routes (lift o).
Proof. now apply routes_silent. Qed.

Lemma routes_get_self : routes get_self.
Proof. now apply routes_silent. Qed.

Lemma routes_bind {A B} (m : M A) (k : A -> M B) :
  routes m -> (forall a, routes (k a)) -> routes (bind m k).
Proof.
  intros Hm Hk st. unfold bind.
  destruct (Hm st) as (S1 & s1 & E1 & F1).
  destruct (m st) as [[a | e] st1]; simpl in *.
  - destruct (Hk a st1) as (S2 & s2 & E2 & F2). rewrite S1 in *.
    split; [exact S2 |]. exists (s1 ++ s2).
    rewrite E2, E1, app_assoc. split; [reflexivity |].
    apply Forall_app. now split.
  - split; [exact S1 |]. now exists s1.
Qed.

Lemma routes_try_except {A} (body : M A) (handler : Exn -> M A) :
  routes body -> (forall e, routes (handler e)) ->
  routes (try_except body handler).
Proof.
  intros Hb Hh st. unfold try_except.
  destruct (Hb st) as (S1 & s1 & E1 & F1).
  destruct (body st) as [[a | e] st1]; simpl in *.
  - split; [exact S1 |]. now exists s1.
  - destruct (Hh e st1) as (S2 & s2 & E2 & F2). rewrite S1 in *.
    split; [exact S2 |]. exists (s1 ++ s2).
    rewrite E2, E1, app_assoc. split; [reflexivity |].
    apply Forall_app. now split.
Qed.

Lemma routes_swallow (m : M unit) : routes m -> routes (swallow m).
Proof. intro H. apply routes_try_except; auto. intro. apply routes_ret. Qed.

Lemma routes_for_each {A} (xs : list A) (body : A -> M unit) :
  (forall x, routes (body x)) -> routes (for_each xs body).
Proof.
  intro Hb. induction xs as [| x xs IH]; simpl.
  - apply routes_ret.
  - apply routes_bind; auto.
Qed.

Lemma routes_graph_query store o q p : routes (graph_query store o q p).
Proof.
  intro st. unfold graph_query. destruct (graph (self st)) as [g |] eqn:Hg.
  - split; [destruct (store _ _); reflexivity |].
    exists [event o (GraphQuery g q p)].
    split; [destruct (store _ _); reflexivity |].
    constructor; [exact Hg | constructor].
  - split; [reflexivity |]. exists []. simpl. rewrite app_nil_r.
    split; [reflexivity | constructor].
Qed.

Lemma routes_constraint_command store entity_type label prop_list :
  routes (bind get_self (fun me =>
            execute_command store ConstraintCreate
              (constraint_command (graph_name me) entity_type label prop_list))).
Proof.
  intro st. unfold bind, get_self, execute_command.
  split; [destruct (store _ _); reflexivity |].
  exists [event ConstraintCreate
            (ExecCommand (constraint_command (graph_name (self st))
                            entity_type label prop_list))].
  split; [destruct (store _ _); reflexivity |].
  constructor; [| constructor]. split; reflexivity.
Qed.

Lemma routes_read_csv_file fs p : routes (read_csv_file fs p).
Proof. apply routes_ret. Qed.

Lemma routes_os_listdir fs p : routes (os_listdir fs p).
Proof. apply routes_lift. Qed.

Ltac method_routes :=
  repeat (first
    [ apply routes_ret
    | apply routes_lift
    | apply routes_get_self
    | apply routes_read_csv_file
    | apply routes_os_listdir
    | apply routes_graph_query
    | apply routes_constraint_command
    | apply routes_bind; intros
    | apply routes_for_each; intros
    | apply routes_swallow
    | apply routes_try_except; intros
    | match goal with
      | |- routes (if ?b then _ else _) => destruct b
      | |- routes (match ?x with _ => _ end) => destruct x
      end ]).

Lemma routes_single_graph store fs py_repr batch_size :
  routes (_load_single_graph_csvs store fs py_repr batch_size).
Proof.
  unfold _load_single_graph_csvs, create_id_indexes_for_all_labels,
    create_indexes_from_csv, create_indexes_row,
    create_supporting_indexes_for_constraints, supporting_index_row,
    create_constraints_from_csv, create_constraints_row,
    load_nodes_batch, load_node_batch, load_edges_batch, load_edge_batch,
    run_individually.
  method_routes.
Qed.

(** X2: where the requests of one pipeline run go.  Every graph query of
    a run of [_load_single_graph_csvs] (index creation, node and edge
    writes) is sent through the graph handle selected when the run
    starts; every raw command is a constraint creation and names the
    graph [self.graph_name].  The loader's fields are unchanged by the
    run. *)
Theorem single_graph_routing store fs py_repr batch_size st :
  let st' := snd (_load_single_graph_csvs store fs py_repr batch_size st) in
  self st' = self st
  /\ exists seg,
      issued st' = issued st ++ seg
      /\ forall e, In e seg ->
           match ev_request e with
           | GraphQuery g _ _ => graph (self st) = Some g
           | ExecCommand args =>
               nth_error args 2 = Some (graph_name (self st))
               /\ ev_origin e = ConstraintCreate
           end.
Proof.
  destruct (routes_single_graph store fs py_repr batch_size st)
    as (Hs & seg & Hseg & Hall).
  split; [exact Hs |]. exists seg. split; [exact Hseg |].
  intros e He. rewrite Forall_forall in Hall. exact (Hall e He).
Qed.

(** X3: without a selected graph nothing is loaded.  When the loader has
    no graph handle (multi-graph mode before a tenant is selected, as in
    the fall-back to the single-graph pipeline), every [graph.query]
    fails on the client side: the run sends no index, node or edge
    request at all, only constraint commands. *)
Theorem no_handle_no_graph_query store fs py_repr batch_size st :
  graph (self st) = None ->
  exists seg,
    issued (snd (_load_single_graph_csvs store fs py_repr batch_size st))
    = issued st ++ seg
    /\ forall e, In e seg ->
         ev_origin e = ConstraintCreate
         /\ exists args, ev_request e = ExecCommand args.
Proof.
  intro Hnone.
  destruct (routes_single_graph store fs py_repr batch_size st)
    as (_ & seg & Hseg & Hall).
  exists seg. split; [exact Hseg |].
  intros e He. rewrite Forall_forall in Hall. specialize (Hall e He).
  unfold well_routed in Hall. destruct (ev_request e) as [g q p | args].
  - rewrite Hnone in Hall. discriminate.
  - split; [tauto | now exists args].
Qed.

Lemma load_tenant_routes store fs py_repr batch_size tenant_dir st :
  exists seg,
    issued (snd (load_tenant store fs py_repr batch_size tenant_dir st))
    = issued st ++ seg
    /\ forall e, In e seg ->
         match ev_request e with
         | GraphQuery g _ _ => g = tenant_graph (self st) tenant_dir
         | ExecCommand args =>
             nth_error args 2 = Some (graph_name (self st))
             /\ ev_origin e = ConstraintCreate
         end.
Proof.
  rewrite load_tenant_run.
  destruct (routes_single_graph store fs py_repr batch_size
              (enter_tenant st tenant_dir)) as (_ & seg & Hseg & Hall).
  exists seg. split; [exact Hseg |].
  intros e He. rewrite Forall_forall in Hall. specialize (Hall e He).
  unfold well_routed in Hall. destruct (ev_request e) as [g q p | args].
  - unfold enter_tenant in Hall. cbn [self graph] in Hall.
    inversion Hall. reflexivity.
  - exact Hall.
Qed.

(** X4: tenant isolation of graph queries.  In the iteration of
    [tenant_dir] every graph query goes to the tenant's graph
    [<graph_name>_<tenant>]; the only requests that name another graph
    are the constraint commands, which name the base graph. *)
Theorem tenant_routing store fs py_repr batch_size tenant_dir st :
  exists seg,
    issued (snd (load_tenant store fs py_repr batch_size tenant_dir st))
    = issued st ++ seg
    /\ forall e, In e seg ->
         match ev_request e with
         | GraphQuery g _ _ => g = tenant_graph (self st) tenant_dir
         | ExecCommand args =>
             nth_error args 2 = Some (graph_name (self st))
             /\ ev_origin e = ConstraintCreate
         end.
Proof. apply load_tenant_routes. Qed.

(** ** Tenants one after the other *)

Lemma for_each_fold {A} (body : A -> M unit) (step : State -> A -> State)
      (xs : list A) :
  (forall x st, body x st = (Ret tt, step st x)) ->
  forall st, for_each xs body st = (Ret tt, fold_left step xs st).
Proof.
  intro Hb. induction xs as [| x xs IH]; intro st; simpl; [reflexivity |].
  unfold bind. now rewrite Hb, IH.
Qed.

(** X5: a tenant's failure stops nothing.  Once tenant directories are
    found, [_load_multi_graph_csvs] returns normally and its effect is
    that of the tenant iterations run one after the other in sorted
    order, each one a full pipeline run on the tenant's directory and
    graph, whatever the outcome of the runs before it. *)
Theorem tenants_run_in_turn store fs py_repr batch_size st entries :
  fs_listdir fs (csv_dir (self st)) = Some entries ->
  let subdirs :=
    filter (fun d => fs_isdir fs (path_join (csv_dir (self st)) d)
                     && PyStr.startswith "tenant_" d) entries in
  subdirs <> [] ->
  _load_multi_graph_csvs store fs py_repr batch_size st
  = (Ret tt,
     fold_left (tenant_step store fs py_repr batch_size) (sorted subdirs) st).
Proof.
  intros Hl subdirs Hne.
  unfold _load_multi_graph_csvs, bind, get_self, os_listdir, lift.
  simpl. rewrite Hl. fold subdirs.
  destruct subdirs as [| d ds] eqn:Hsub; [contradiction |].
  apply for_each_fold. intros x s. apply load_tenant_run.
Qed.

(** ** Batches *)

Lemma firstn_add {A} (a b : nat) (l : list A) :
  firstn (a + b) l = firstn a l ++ firstn b (skipn a l).
Proof.
  revert l. induction a as [| a IH]; intro l; simpl; [reflexivity |].
  destruct l as [| x l]; simpl.
  - now rewrite firstn_nil.
  - now rewrite IH.
Qed.

Lemma skipn_add {A} (a b : nat) (l : list A) :
  skipn (a + b) l = skipn b (skipn a l).
Proof.
  revert l. induction a as [| a IH]; intro l; simpl; [reflexivity |].
  destruct l as [| x l]; simpl; [now rewrite skipn_nil | apply IH].
Qed.

Lemma concat_slices {A} (l : list A) (size count start : nat) :
  concat (map (fun i => slice l i size) (range_from count start size))
  = firstn (count * size) (skipn start l).
Proof.
  revert start. induction count as [| c IH]; intro start; simpl;
    [reflexivity |].
  rewrite IH, firstn_add. unfold slice. now rewrite skipn_add.
Qed.

Lemma range_cover (len size : nat) :
  0 < size ->
  let q := (len + size - 1) / size in
  len <= q * size /\ (q = 0 \/ (q - 1) * size < len).
Proof.
  intros Hs q.
  pose proof (Nat.div_mod_eq (len + size - 1) size) as Hdm.
  pose proof (Nat.mod_upper_bound (len + size - 1) size) as Hm.
  fold q in Hdm. rewrite (Nat.mul_comm q size).
  destruct q as [| q']; [lia |].
  rewrite Nat.mul_succ_r in *. split; [lia | right].
  replace (S q' - 1) with q' by lia. rewrite (Nat.mul_comm q' size). lia.
Qed.

Lemma slices_sized {A} (l : list A) (size count start : nat) :
  0 < size -> (count = 0 \/ start + (count - 1) * size < length l) ->
  Forall (fun b => b <> [] /\ length b <= size)
         (map (fun i => slice l i size) (range_from count start size)).
Proof.
  intros Hs. revert start. induction count as [| c IH]; intros start Hb;
    simpl; constructor.
  - destruct Hb as [Hb | Hb]; [discriminate |].
    unfold slice. split.
    + assert (Hlt : start < length l) by lia.
      intro E. apply (f_equal (@length A)) in E.
      rewrite length_firstn, length_skipn in E. simpl in E. lia.
    + rewrite length_firstn. lia.
  - apply IH. destruct c as [| c']; [now left | right].
    destruct Hb as [Hb | Hb]; [discriminate |].
    simpl in Hb |- *. rewrite Nat.sub_0_r in *. lia.
Qed.

(** X6: batching loses nothing.  For a positive batch size the batches
    of a file are, concatenated in order, exactly its rows; no batch is
    empty and none is longer than the batch size. *)
Theorem batches_partition_rows rows batch_size :
  (0 < batch_size)%Z ->
  exists batches,
    batches_of rows batch_size = Ret batches
    /\ concat batches = rows
    /\ Forall (fun b => b <> [] /\ (Z.of_nat (length b) <= batch_size)%Z) batches.
Proof.
  intro Hpos. unfold batches_of.
  destruct (batch_size =? 0)%Z eqn:E0; [apply Z.eqb_eq in E0; lia |].
  destruct (batch_size <? 0)%Z eqn:E1; [apply Z.ltb_lt in E1; lia |].
  set (size := Z.to_nat batch_size).
  assert (Hs : 0 < size) by (unfold size; lia).
  destruct (range_cover (length rows) size Hs) as [Hc Hl].
  eexists. split; [reflexivity |]. split.
  - unfold py_range. rewrite concat_slices. simpl.
    apply firstn_all2. exact Hc.
  - unfold py_range.
    eapply Forall_impl; [| apply (slices_sized rows size _ 0 Hs); exact Hl].
    simpl. intros b [Hne Hle]. split; [exact Hne |]. unfold size in Hle. lia.
Qed.

(** X7: non-positive batch sizes.  On a file that has rows, a batch
    size of zero makes both loaders raise [ValueError] and a negative
    one makes them return normally; in either case nothing is sent: a
    negative batch size silently loads nothing. *)
Theorem non_positive_batch_size store fs py_repr file_path batch_size st
        row rows :
  fs_rows fs file_path = Some (row :: rows) ->
  (batch_size <= 0)%Z ->
  let outcome := if (batch_size =? 0)%Z then Raise ValueError else Ret tt in
  load_nodes_batch store fs py_repr file_path batch_size st = (outcome, st)
  /\ load_edges_batch store fs py_repr file_path batch_size st = (outcome, st).
Proof.
  intros Hrows Hle outcome.
  unfold load_nodes_batch, load_edges_batch, bind, read_csv_file, ret, lift,
    batches_of. rewrite Hrows. subst outcome.
  destruct (batch_size =? 0)%Z eqn:E0; [split; reflexivity |].
  apply Z.eqb_neq in E0.
  destruct (batch_size <? 0)%Z eqn:E1; [split; reflexivity |].
  apply Z.ltb_ge in E1. lia.
Qed.

(** ** Store errors never escape *)

Lemma returns_run_individually store o parts :
  returns (run_individually store o parts).
Proof. apply returns_for_each. intro q. apply returns_swallow. Qed.

Lemma same_outcome_ret {A} (a : A) : same_outcome (ret a) (ret a).
Proof. intros st1 st2 H. now split. Qed.

Lemma same_outcome_lift {A} (o : Outcome A) : same_outcome (lift o) (lift o).
Proof. intros st1 st2 H. now split. Qed.

Lemma same_outcome_get_self : same_outcome get_self get_self.
Proof. intros st1 st2 H. unfold get_self. simpl. now rewrite H. Qed.

Lemma same_outcome_bind {A B} (m1 m2 : M A) (k1 k2 : A -> M B) :
  same_outcome m1 m2 -> (forall a, same_outcome (k1 a) (k2 a)) ->
  same_outcome (bind m1 k1) (bind m2 k2).
Proof.
  intros Hm Hk st1 st2 H. unfold bind. destruct (Hm st1 st2 H) as [Hr Hs].
  destruct (m1 st1) as [[a1 | e1] s1], (m2 st2) as [[a2 | e2] s2];
    simpl in Hr, Hs; try discriminate.
  - inversion Hr; subst. now apply Hk.
  - inversion Hr; subst. simpl. now split.
Qed.

Lemma same_outcome_for_each {A} (xs : list A) (f g : A -> M unit) :
  (forall x, same_outcome (f x) (g x)) ->
  same_outcome (for_each xs f) (for_each xs g).
Proof.
  intro H. induction xs as [| x xs IH]; simpl.
  - apply same_outcome_ret.
  - apply same_outcome_bind; auto.
Qed.

(** Two methods that always return and keep the loader's fields end
    alike. *)
Lemma same_outcome_returning (m1 m2 : M unit) :
  returns m1 -> returns m2 -> keeps_self m1 -> keeps_self m2 ->
  same_outcome m1 m2.
Proof.
  intros R1 R2 K1 K2 st1 st2 H. rewrite R1, R2, K1, K2. now split.
Qed.

Lemma keeps_self_run_individually store o parts :
  keeps_self (run_individually store o parts).
Proof.
  apply keeps_self_for_each. intro q. apply keeps_self_swallow.
  apply keeps_self_graph_query.
Qed.

Lemma same_outcome_load_node_batch store1 store2 py_repr label batch :
  same_outcome (load_node_batch store1 py_repr label batch)
               (load_node_batch store2 py_repr label batch).
Proof.
  unfold load_node_batch.
  apply same_outcome_bind; [apply same_outcome_get_self | intro me].
  apply same_outcome_bind; [apply same_outcome_lift | intro parts].
  apply same_outcome_returning.
  - apply returns_try_except. intro e. apply returns_run_individually.
  - apply returns_try_except. intro e. apply returns_run_individually.
  - apply keeps_self_try_except.
    + apply keeps_self_bind; [apply keeps_self_lift | intro data].
      apply keeps_self_bind; [apply keeps_self_get_self | intro me'].
      apply keeps_self_graph_query.
    + intro e. apply keeps_self_run_individually.
  - apply keeps_self_try_except.
    + apply keeps_self_bind; [apply keeps_self_lift | intro data].
      apply keeps_self_bind; [apply keeps_self_get_self | intro me'].
      apply keeps_self_graph_query.
    + intro e. apply keeps_self_run_individually.
Qed.

Lemma keeps_self_edge_bulk store rel_type batch :
  keeps_self
    (bind (lift (edge_batch_data batch)) (fun batch_data =>
       bind get_self (fun me' =>
         match edge_unwind_query (merge_mode me') rel_type batch_data with
         | None => ret tt
         | Some unwind_query =>
             graph_query store EdgeBulk unwind_query (EdgeBatch batch_data)
         end))).
Proof.
  apply keeps_self_bind; [apply keeps_self_lift | intro data].
  apply keeps_self_bind; [apply keeps_self_get_self | intro me'].
  destruct (edge_unwind_query _ _ _);
    [apply keeps_self_graph_query | apply keeps_self_ret].
Qed.

Lemma same_outcome_load_edge_batch store1 store2 py_repr rel_type batch :
  same_outcome (load_edge_batch store1 py_repr rel_type batch)
               (load_edge_batch store2 py_repr rel_type batch).
Proof.
  unfold load_edge_batch.
  apply same_outcome_bind; [apply same_outcome_get_self | intro me].
  apply same_outcome_bind; [apply same_outcome_lift | intro parts].
  apply same_outcome_returning.
  - apply returns_try_except. intro e. apply returns_run_individually.
  - apply returns_try_except. intro e. apply returns_run_individually.
  - apply keeps_self_try_except;
      [apply (keeps_self_edge_bulk store1)
      | intro e; apply keeps_self_run_individually].
  - apply keeps_self_try_except;
      [apply (keeps_self_edge_bulk store2)
      | intro e; apply keeps_self_run_individually].
Qed.

Lemma same_outcome_load_nodes_batch store1 store2 fs py_repr file_path batch_size :
  same_outcome (load_nodes_batch store1 fs py_repr file_path batch_size)
               (load_nodes_batch store2 fs py_repr file_path batch_size).
Proof.
  unfold load_nodes_batch, read_csv_file.
  apply same_outcome_bind; [apply same_outcome_ret | intros [| row rows]].
  - apply same_outcome_ret.
  - apply same_outcome_bind; [apply same_outcome_lift | intro batches].
    apply same_outcome_for_each. intro b. apply same_outcome_load_node_batch.
Qed.

Lemma same_outcome_load_edges_batch store1 store2 fs py_repr file_path batch_size :
  same_outcome (load_edges_batch store1 fs py_repr file_path batch_size)
               (load_edges_batch store2 fs py_repr file_path batch_size).
Proof.
  unfold load_edges_batch, read_csv_file.
  apply same_outcome_bind; [apply same_outcome_ret | intros [| row rows]].
  - apply same_outcome_ret.
  - apply same_outcome_bind; [apply same_outcome_lift | intro batches].
    apply same_outcome_for_each. intro b. apply same_outcome_load_edge_batch.
Qed.

Lemma same_outcome_create_id_indexes store1 store2 fs :
  same_outcome (create_id_indexes_for_all_labels store1 fs)
               (create_id_indexes_for_all_labels store2 fs).
Proof.
  unfold create_id_indexes_for_all_labels.
  apply same_outcome_bind; [apply same_outcome_get_self | intro me].
  destruct (negb _); [apply same_outcome_ret |].
  apply same_outcome_bind; [apply same_outcome_lift | intro names].
  apply same_outcome_for_each. intro f.
  apply same_outcome_returning;
    try apply returns_swallow;
    apply keeps_self_swallow, keeps_self_graph_query.
Qed.

Lemma same_outcome_single_graph store1 store2 fs py_repr batch_size :
  same_outcome (_load_single_graph_csvs store1 fs py_repr batch_size)
               (_load_single_graph_csvs store2 fs py_repr batch_size).
Proof.
  unfold _load_single_graph_csvs.
  apply same_outcome_bind; [apply same_outcome_get_self | intro me].
  apply same_outcome_bind; [apply same_outcome_lift | intro names].
  apply same_outcome_bind; [apply same_outcome_create_id_indexes | intros _].
  apply same_outcome_bind; [| intros _].
  { apply same_outcome_returning;
      try apply returns_create_indexes; apply keeps_self_create_indexes. }
  apply same_outcome_bind; [| intros _].
  { apply same_outcome_returning;
      try apply returns_supporting_indexes; apply keeps_self_supporting_indexes. }
  apply same_outcome_bind; [| intros _].
  { apply same_outcome_returning;
      try apply returns_create_constraints; apply keeps_self_create_constraints. }
  apply same_outcome_bind; [| intros _].
  - apply same_outcome_for_each. intro f.
    apply same_outcome_bind; [apply same_outcome_get_self | intro me1].
    apply same_outcome_load_nodes_batch.
  - apply same_outcome_for_each. intro f.
    apply same_outcome_bind; [apply same_outcome_get_self | intro me2].
    apply same_outcome_load_edges_batch.
Qed.

Lemma same_outcome_load_tenant store1 store2 fs py_repr batch_size tenant_dir :
  same_outcome (load_tenant store1 fs py_repr batch_size tenant_dir)
               (load_tenant store2 fs py_repr batch_size tenant_dir).
Proof.
  intros st1 st2 H. rewrite !load_tenant_run. cbn [fst snd].
  split; [reflexivity |].
  unfold leave_tenant. cbn [self].
  rewrite !keeps_self_single_graph. unfold enter_tenant. cbn [self].
  now rewrite H.
Qed.

Lemma same_outcome_load_all store1 store2 fs py_repr batch_size :
  same_outcome (load_all_csvs store1 fs py_repr batch_size)
               (load_all_csvs store2 fs py_repr batch_size).
Proof.
  unfold load_all_csvs.
  apply same_outcome_bind; [apply same_outcome_get_self | intro me].
  destruct (negb _); [apply same_outcome_ret |].
  destruct (multi_graph_mode me); [| apply same_outcome_single_graph].
  unfold _load_multi_graph_csvs.
  apply same_outcome_bind; [apply same_outcome_get_self | intro me'].
  apply same_outcome_bind; [apply same_outcome_lift | intro entries].
  destruct (filter _ entries); [apply same_outcome_single_graph |].
  apply same_outcome_for_each. intro d. apply same_outcome_load_tenant.
Qed.

(** X8: store errors never escape.  Whether a load returns or raises,
    and which exception it raises, is the same for every store: it
    depends on the files, the batch size and the loader, never on which
    requests the store refuses.  This holds for [load_nodes_batch] and
    [load_edges_batch] on any file, for the pipeline of one graph and for
    [load_all_csvs]; the loader's fields at the end are the same too. *)
Theorem store_errors_never_escape store1 store2 fs py_repr batch_size st :
  (forall file_path,
      fst (load_nodes_batch store1 fs py_repr file_path batch_size st)
      = fst (load_nodes_batch store2 fs py_repr file_path batch_size st)
      /\ fst (load_edges_batch store1 fs py_repr file_path batch_size st)
         = fst (load_edges_batch store2 fs py_repr file_path batch_size st))
  /\ fst (_load_single_graph_csvs store1 fs py_repr batch_size st)
     = fst (_load_single_graph_csvs store2 fs py_repr batch_size st)
  /\ fst (load_all_csvs store1 fs py_repr batch_size st)
     = fst (load_all_csvs store2 fs py_repr batch_size st)
  /\ self (snd (load_all_csvs store1 fs py_repr batch_size st))
     = self (snd (load_all_csvs store2 fs py_repr batch_size st)).
Proof.
  split; [intro file_path; split | split; [| split]].
  - apply (same_outcome_load_nodes_batch store1 store2 fs py_repr file_path
             batch_size st st eq_refl).
  - apply (same_outcome_load_edges_batch store1 store2 fs py_repr file_path
             batch_size st st eq_refl).
  - apply (same_outcome_single_graph store1 store2 fs py_repr batch_size
             st st eq_refl).
  - apply (same_outcome_load_all store1 store2 fs py_repr batch_size
             st st eq_refl).
  - apply (same_outcome_load_all store1 store2 fs py_repr batch_size
             st st eq_refl).
Qed.

(** ** The descriptor files as a whole *)

Lemma for_each_after_self {A} (l : Loader) (body : A -> M unit)
      (ev : A -> list Event) (xs : list A) :
  (forall x st, self st = l -> body x st = (Ret tt, after st (ev x))) ->
  forall st, self st = l ->
             for_each xs body st = (Ret tt, after st (flat_map ev xs)).
Proof.
  intro Hb. induction xs as [| x xs IH]; intros st Hl; simpl.
  - unfold ret. now rewrite after_nil.
  - unfold bind. rewrite (Hb x st Hl).
    rewrite IH by exact Hl. now rewrite after_after.
Qed.

Lemma create_indexes_row_events store st g index :
  graph (self st) = Some g ->
  create_indexes_row store index st = (Ret tt, after st (index_row_events g index)).
Proof.
  intro Hg. unfold index_row_events.
  destruct (index_row_skipped index) eqn:Hskip.
  - unfold create_indexes_row. rewrite Hskip. unfold ret. now rewrite after_nil.
  - now apply create_indexes_row_kept.
Qed.

Lemma create_indexes_run store fs st g :
  graph (self st) = Some g ->
  let indexes_file := path_join (csv_dir (self st)) "indexes.csv" in
  let indexes := match fs_rows fs indexes_file with
                 | Some rows => rows
                 | None => []
                 end in
  create_indexes_from_csv store fs st
  = (Ret tt,
     after st (if fs_exists fs indexes_file
               then flat_map (index_row_events g) indexes else [])).
Proof.
  intros Hg indexes_file indexes.
  unfold create_indexes_from_csv, bind, get_self, read_csv_file, ret.
  fold indexes_file. destruct (fs_exists fs indexes_file); simpl.
  - fold indexes. apply (for_each_after g); [| exact Hg].
    intros x st' Hg'. now apply create_indexes_row_events.
  - now rewrite after_nil.
Qed.

Lemma map_flat_map {A B C} (f : B -> C) (g : A -> list B) (l : list A) :
  map f (flat_map g l) = flat_map (fun x => map f (g x)) l.
Proof.
  induction l as [| x l IH]; simpl; [reflexivity |].
  now rewrite map_app, IH.
Qed.

(** X9: the index descriptor file as a whole.  With a graph selected,
    whenever [create_indexes_from_csv] returns normally it has sent, row
    after row and whatever the store answers, exactly the queries
    [CREATE INDEX ON :label(prop)] of each row that is neither LOOKUP
    (its [type] in upper case) nor UNIQUE and has labels and properties:
    one per pair of the row's non-blank [;]-separated labels and
    properties.  A refused index never blocks the next.  Without the
    file nothing is sent. *)
Theorem descriptor_indexes_sent store fs st g :
  graph (self st) = Some g ->
  let indexes_file := path_join (csv_dir (self st)) "indexes.csv" in
  let indexes := match fs_rows fs indexes_file with
                 | Some rows => rows
                 | None => []
                 end in
  let segments text :=
    filter PyStr.truthy (map PyStr.strip (PyStr.split ";" text)) in
  let queries index :=
    let labels := PyStr.strip (row_get index "labels" "") in
    let properties := PyStr.strip (row_get index "properties" "") in
    if negb (PyStr.truthy labels) || negb (PyStr.truthy properties)
       || String.eqb (PyStr.upper (row_get index "type" "")) "LOOKUP"
       || String.eqb (row_get index "uniqueness" "NON_UNIQUE") "UNIQUE"
    then []
    else map (fun pair =>
                ("CREATE INDEX ON :" ++ fst pair ++ "(" ++ snd pair ++ ")")%string)
             (list_prod (segments labels) (segments properties)) in
  fst (create_indexes_from_csv store fs st) = Ret tt ->
  snd (create_indexes_from_csv store fs st)
  = {| self := self st;
       issued :=
         issued st
         ++ (if fs_exists fs indexes_file
             then map (fun q => {| ev_origin := DescriptorIndex;
                                   ev_request := GraphQuery g q NoParams |})
                      (flat_map queries indexes)
             else []) |}.
Proof.
  intros Hg indexes_file indexes segments queries _.
  rewrite (create_indexes_run store fs st g Hg).
  fold indexes_file. fold indexes. unfold after. cbn [snd]. f_equal. f_equal.
  destruct (fs_exists fs indexes_file); [| reflexivity].
  rewrite map_flat_map. apply flat_map_ext. intro index.
  unfold index_row_events, queries, index_row_skipped.
  destruct (_ || _); [reflexivity |].
  now rewrite map_map.
Qed.

Lemma supporting_index_row_events store st g constraint :
  graph (self st) = Some g ->
  supporting_index_row store constraint st
  = (Ret tt,
     after st (map (supporting_event g constraint)
                   (unique_constraint_labels constraint))).
Proof.
  intro Hg. unfold supporting_index_row, unique_constraint_labels.
  destruct (_ || _).
  - unfold ret. now rewrite after_nil.
  - rewrite <- (flat_map_singleton (supporting_event g constraint)).
    apply (for_each_after g); [| exact Hg].
    intros label st' Hg'. now apply swallow_graph_query.
Qed.

Lemma swallow_constraint_command store st entity_type label prop_list :
  swallow (bind get_self (fun me =>
             execute_command store ConstraintCreate
               (constraint_command (graph_name me) entity_type label prop_list))) st
  = (Ret tt,
     after st [event ConstraintCreate
                 (ExecCommand (constraint_command (graph_name (self st))
                                 entity_type label prop_list))]).
Proof.
  unfold swallow, try_except, bind, get_self, execute_command.
  destruct (store _ _); reflexivity.
Qed.

Lemma create_constraints_row_events store st constraint :
  create_constraints_row store constraint st
  = (Ret tt,
     after st (map (constraint_event (graph_name (self st)) constraint)
                   (unique_constraint_labels constraint))).
Proof.
  unfold create_constraints_row, unique_constraint_labels.
  destruct (negb _ || negb _); simpl.
  - unfold ret. now rewrite after_nil.
  - destruct (PyStr.contains "UNIQUE" _); simpl.
    + rewrite <- (flat_map_singleton
                    (constraint_event (graph_name (self st)) constraint)).
      apply (for_each_after_self (self st)); [| reflexivity].
      intros label st' Hl. rewrite swallow_constraint_command, Hl.
      reflexivity.
    + assert (H : forall (labels : list string) s,
                 for_each labels (fun _ => swallow (ret tt)) s = (Ret tt, s)).
      { induction labels as [| x xs IH]; intro s; simpl; [reflexivity |].
        unfold bind. simpl. apply IH. }
      rewrite H. simpl. now rewrite after_nil.
Qed.

Lemma constraint_steps_run store fs st g :
  graph (self st) = Some g ->
  let constraints_file := path_join (csv_dir (self st)) "constraints.csv" in
  fs_exists fs constraints_file = true ->
  let constraints := match fs_rows fs constraints_file with
                     | Some rows => rows
                     | None => []
                     end in
  let pairs :=
    flat_map (fun c => map (fun label => (c, label)) (unique_constraint_labels c))
             constraints in
  create_supporting_indexes_for_constraints store fs st
  = (Ret tt,
     after st (map (fun cl => supporting_event g (fst cl) (snd cl)) pairs))
  /\ create_constraints_from_csv store fs st
     = (Ret tt,
        after st (map (fun cl => constraint_event (graph_name (self st))
                                   (fst cl) (snd cl)) pairs)).
Proof.
  intros Hg constraints_file Hex constraints pairs.
  assert (Hmap : forall (f : Row -> string -> Event),
             map (fun cl => f (fst cl) (snd cl)) pairs
             = flat_map (fun c => map (f c) (unique_constraint_labels c))
                        constraints).
  { intro f. unfold pairs. generalize constraints. intro cs.
    induction cs as [| c cs IH]; simpl; [reflexivity |].
    now rewrite map_app, map_map, IH. }
  split.
  - unfold create_supporting_indexes_for_constraints, bind, get_self,
      read_csv_file, ret.
    fold constraints_file. rewrite Hex. simpl. fold constraints.
    rewrite Hmap.
    destruct constraints as [| c cs] eqn:Hc; [simpl; now rewrite after_nil |].
    apply (for_each_after g); [| exact Hg].
    intros x st' Hg'. now apply supporting_index_row_events.
  - unfold create_constraints_from_csv, bind, get_self, read_csv_file, ret.
    fold constraints_file. rewrite Hex. simpl. fold constraints.
    rewrite Hmap.
    destruct constraints as [| c cs] eqn:Hc; [simpl; now rewrite after_nil |].
    apply (for_each_after_self (self st)); [| reflexivity].
    intros x st' Hl. rewrite create_constraints_row_events, Hl. reflexivity.
Qed.

(** X10: every unique constraint gets its supporting index.  With a
    graph selected and a [constraints.csv], whenever the supporting-index
    step and the constraint step return normally they have walked the
    same (row, label) pairs in the same order: the rows that have
    labels, properties and a type containing UNIQUE (in upper case), each
    with its non-blank [;]-separated labels.  For each pair the
    supporting step has sent [CREATE INDEX FOR (n:label) ON (n.p)] for a
    single property [p], [CREATE INDEX FOR (n:label) ON (n.p1, n.p2, ...)]
    otherwise; the constraint step has sent the command
    [GRAPH.CONSTRAINT CREATE <graph_name> UNIQUE <entity type> label
    PROPERTIES <count> p1 p2 ...] over the same property list.  Rows of
    any other type get neither. *)
Theorem constraints_and_supporting_indexes store fs st g :
  graph (self st) = Some g ->
  let constraints_file := path_join (csv_dir (self st)) "constraints.csv" in
  fs_exists fs constraints_file = true ->
  let constraints := match fs_rows fs constraints_file with
                     | Some rows => rows
                     | None => []
                     end in
  let segments text :=
    filter PyStr.truthy (map PyStr.strip (PyStr.split ";" text)) in
  let labels c := PyStr.strip (row_get c "labels" "") in
  let properties c := PyStr.strip (row_get c "properties" "") in
  let unique_labels c :=
    if negb (PyStr.truthy (labels c)) || negb (PyStr.truthy (properties c))
       || negb (PyStr.contains "UNIQUE" (PyStr.upper (row_get c "type" "")))
    then [] else segments (labels c) in
  let pairs :=
    flat_map (fun c => map (fun label => (c, label)) (unique_labels c))
             constraints in
  let index_query (cl : Row * string) :=
    let props := segments (properties (fst cl)) in
    (match props with
     | [p] => "CREATE INDEX FOR (n:" ++ snd cl ++ ") ON (n." ++ p ++ ")"
     | _ =>
         "CREATE INDEX FOR (n:" ++ snd cl ++ ") ON ("
         ++ PyStr.join ", " (map (fun prop => "n." ++ prop) props) ++ ")"
     end)%string in
  let command (cl : Row * string) :=
    ["GRAPH.CONSTRAINT"; "CREATE"; graph_name (self st); "UNIQUE";
     PyStr.upper (row_get (fst cl) "entity_type" "NODE"); snd cl;
     "PROPERTIES";
     PyStr.str_of_nat (length (segments (properties (fst cl))))]%string
    ++ segments (properties (fst cl)) in
  fst (create_supporting_indexes_for_constraints store fs st) = Ret tt ->
  fst (create_constraints_from_csv store fs st) = Ret tt ->
  snd (create_supporting_indexes_for_constraints store fs st)
  = {| self := self st;
       issued :=
         issued st
         ++ map (fun cl => {| ev_origin := SupportingIndex;
                              ev_request := GraphQuery g (index_query cl) NoParams |})
                pairs |}
  /\ snd (create_constraints_from_csv store fs st)
     = {| self := self st;
          issued :=
            issued st
            ++ map (fun cl => {| ev_origin := ConstraintCreate;
                                 ev_request := ExecCommand (command cl) |})
                   pairs |}.
Proof.
  intros Hg constraints_file Hex constraints segments labels properties
         unique_labels pairs index_query command _ _.
  destruct (constraint_steps_run store fs st g Hg Hex) as [H1 H2].
  rewrite H1, H2. split; reflexivity.
Qed.

(** ** Labels, keys and paths *)

Lemma prefix_char c x s :
  prefix (String c EmptyString) (String x s) = Ascii.eqb x c.
Proof.
  cbn [prefix]. destruct (ascii_dec c x) as [E | E].
  - subst x. rewrite Ascii.eqb_refl. now destruct s.
  - symmetry. apply Ascii.eqb_neq. congruence.
Qed.

Lemma contains_char_cons c x s :
  PyStr.contains (String c EmptyString) (String x s)
  = Ascii.eqb x c || PyStr.contains (String c EmptyString) s.
Proof. cbn [PyStr.contains]. now rewrite prefix_char. Qed.

Lemma contains_char_nil c : PyStr.contains (String c EmptyString) "" = false.
Proof. reflexivity. Qed.

Lemma replace_char c d s :
  PyStr.replace (String c EmptyString) (String d EmptyString) s
  = PyStr.map_chars (swap_char c d) s.
Proof.
  unfold PyStr.replace. induction s as [| x s IH]; [reflexivity |].
  cbn [PyStr.replace_go PyStr.map_chars]. rewrite prefix_char.
  unfold swap_char at 1. destruct (Ascii.eqb x c); cbn [andb].
  - cbn [String.length pred append]. now rewrite IH.
  - now rewrite IH.
Qed.

Lemma swapped_has_no c d s :
  c <> d -> PyStr.contains (String c EmptyString) (PyStr.map_chars (swap_char c d) s) = false.
Proof.
  intro Hcd. induction s as [| x s IH]; [reflexivity |].
  cbn [PyStr.map_chars]. rewrite contains_char_cons, IH, orb_false_r.
  unfold swap_char. destruct (Ascii.eqb x c) eqn:E; [| exact E].
  apply Ascii.eqb_neq. congruence.
Qed.

Lemma swap_without c d s :
  PyStr.contains (String c EmptyString) s = false ->
  PyStr.map_chars (swap_char c d) s = s.
Proof.
  induction s as [| x s IH]; [reflexivity |].
  rewrite contains_char_cons. intro H. apply orb_false_iff in H.
  destruct H as [Hx Hs]. cbn [PyStr.map_chars]. unfold swap_char at 1.
  now rewrite Hx, IH.
Qed.

(** X11: node labels carry no colon.  The label derived from a node file
    name never contains [:], whatever the file is called, so it stands
    for one label in [:{label}]; sanitizing it again changes nothing. *)
Theorem node_label_has_no_colon filename :
  PyStr.contains ":" (node_label_of filename) = false
  /\ PyStr.replace ":" "_" (node_label_of filename) = node_label_of filename.
Proof.
  assert (H : PyStr.contains ":" (node_label_of filename) = false).
  { unfold node_label_of. rewrite replace_char. apply swapped_has_no.
    discriminate. }
  split; [exact H |]. rewrite replace_char. now apply swap_without.
Qed.

Lemma split_nonempty sep s : PyStr.split sep s <> [].
Proof.
  destruct s as [| c s]; simpl; [discriminate |].
  destruct (Ascii.eqb c sep); [discriminate |].
  destruct (PyStr.split sep s); discriminate.
Qed.

Lemma split_without sep s :
  PyStr.contains (String sep EmptyString) s = false -> PyStr.split sep s = [s].
Proof.
  induction s as [| c s IH]; [reflexivity |].
  rewrite contains_char_cons. intro H. apply orb_false_iff in H.
  destruct H as [Hc Hs]. cbn [PyStr.split]. now rewrite Hc, (IH Hs).
Qed.

Lemma first_segment_without sep s :
  PyStr.contains (String sep EmptyString) (first_segment sep s) = false.
Proof.
  unfold first_segment. induction s as [| c s IH]; [reflexivity |].
  cbn [PyStr.split]. destruct (Ascii.eqb c sep) eqn:Hc; [reflexivity |].
  destruct (PyStr.split sep s) as [| h t]; rewrite contains_char_cons, Hc;
    [reflexivity | exact IH].
Qed.

(** X12: endpoint labels of the two edge paths.  The endpoint label of a
    bulk record never contains [:], and for a non-empty label it is the
    label the fallback query of the same row uses (the first
    [:]-separated segment). *)
Theorem endpoint_label_first_segment label :
  PyStr.contains ":" (label_first label) = false
  /\ (PyStr.truthy label = true -> label_first label = first_segment ":" label).
Proof.
  destruct label as [| c s]; [split; [reflexivity | discriminate] |].
  unfold label_first. cbn [PyStr.truthy andb].
  destruct (PyStr.contains ":" (String c s)) eqn:Hc.
  - split; [apply first_segment_without | reflexivity].
  - split; [exact Hc |]. intros _. unfold first_segment.
    now rewrite (split_without ":" _ Hc).
Qed.

(** X13: cleaning a property key is stable.  [clean_key] collapses
    [X:X] to [X] and leaves every other key alone; applied to its own
    result it changes nothing. *)
Theorem clean_key_idempotent key : clean_key (clean_key key) = clean_key key.
Proof.
  assert (Hfix : forall k, PyStr.contains ":" k = false -> clean_key k = k).
  { intros k Hk. unfold clean_key. now rewrite Hk. }
  destruct (PyStr.contains ":" key) eqn:Hc; [| now rewrite !(Hfix key Hc)].
  assert (Hcases : clean_key key = key
                   \/ exists b, PyStr.split ":" key = [clean_key key; b]).
  { unfold clean_key. rewrite Hc.
    destruct (PyStr.split ":" key) as [| a [| b [| c l]]]; auto.
    destruct (String.eqb a b); [right; now exists b | now left]. }
  destruct Hcases as [E | [b Hs]]; [now rewrite E |].
  apply Hfix. pose proof (first_segment_without ":" key) as Hf.
  unfold first_segment in Hf. now rewrite Hs in Hf.
Qed.

Lemma split_app sep a b :
  PyStr.split sep (a ++ String sep b) = PyStr.split sep a ++ PyStr.split sep b.
Proof.
  induction a as [| c a IH]; cbn [append PyStr.split].
  - now rewrite Ascii.eqb_refl.
  - destruct (Ascii.eqb c sep); [now rewrite IH |].
    rewrite IH. pose proof (split_nonempty sep a) as Hne.
    destruct (PyStr.split sep a) as [| h t]; [contradiction | reflexivity].
Qed.

Lemma last_app_nonempty {A} (l1 l2 : list A) d :
  l2 <> [] -> last (l1 ++ l2) d = last l2 d.
Proof.
  intro H. induction l1 as [| x l1 IH]; [reflexivity |].
  simpl. destruct (l1 ++ l2) eqn:E; [| exact IH].
  apply app_eq_nil in E. destruct E. contradiction.
Qed.

Lemma append_assoc_str (a b c : string) :
  ((a ++ b) ++ c)%string = (a ++ (b ++ c))%string.
Proof. induction a as [| x a IH]; simpl; [reflexivity | now rewrite IH]. Qed.

Lemma rev_onto_app s acc :
  PyStr.rev_onto s acc = (PyStr.rev_onto s "" ++ acc)%string.
Proof.
  revert acc. induction s as [| c s IH]; intro acc; simpl; [reflexivity |].
  rewrite IH, (IH (String c "")).
  now rewrite append_assoc_str.
Qed.

Lemma rev_onto_cons x s :
  PyStr.rev_onto (String x s) "" = (PyStr.rev_onto s "" ++ String x "")%string.
Proof. cbn [PyStr.rev_onto]. apply rev_onto_app. Qed.

Lemma endswith_char c s :
  PyStr.endswith (String c EmptyString) s = true ->
  exists s', s = (s' ++ String c "")%string.
Proof.
  unfold PyStr.endswith.
  change (PyStr.rev_onto (String c "") "") with (String c "").
  induction s as [| x s IH]; [discriminate |].
  rewrite rev_onto_cons.
  destruct (PyStr.rev_onto s "") as [| z r] eqn:E.
  - assert (Hs : s = EmptyString).
    { destruct s as [| y s']; [reflexivity |]. rewrite rev_onto_cons in E.
      destruct (PyStr.rev_onto s' ""); discriminate. }
    subst s. cbn [append]. rewrite prefix_char. intro H.
    apply Ascii.eqb_eq in H. subst. now exists EmptyString.
  - cbn [append]. rewrite prefix_char. intro H.
    assert (Hp : prefix (String c "") (String z r) = true)
      by now rewrite prefix_char.
    destruct (IH Hp) as [t Ht]. exists (String x t). simpl. now rewrite Ht.
Qed.

(** X14: joining a directory and a file name, then taking the base name,
    gives the file name back, for every name without [/] (as directory
    listings give them).  So a node file is loaded under the label its id
    index was created for, and an edge file under the relationship type
    of its name. *)
Theorem basename_of_joined_path dir name :
  PyStr.contains "/" name = false ->
  basename (path_join dir name) = name
  /\ node_label_of (basename (path_join dir name)) = node_label_of name
  /\ rel_type_of (basename (path_join dir name)) = rel_type_of name.
Proof.
  intro Hn.
  assert (H : basename (path_join dir name) = name).
  { unfold path_join, PyStr.startswith, basename.
    assert (Hp : prefix "/" name = false).
    { destruct name as [| c s]; [reflexivity |].
      rewrite contains_char_cons in Hn. apply orb_false_iff in Hn.
      now rewrite prefix_char. }
    rewrite Hp.
    destruct (negb (PyStr.truthy dir) || PyStr.endswith "/" dir) eqn:Hd.
    - apply orb_true_iff in Hd. destruct Hd as [Hd | Hd].
      + destruct dir; [| discriminate]. simpl.
        now rewrite (split_without "/" name Hn).
      + destruct (endswith_char "/" dir Hd) as [d' Hd'].
        subst dir. rewrite append_assoc_str.
        change (String "/" "" ++ name)%string with (String "/" name).
        rewrite split_app, last_app_nonempty by apply split_nonempty.
        now rewrite (split_without "/" name Hn).
    - change ("/" ++ name)%string with (String "/" name).
      rewrite split_app, last_app_nonempty by apply split_nonempty.
      now rewrite (split_without "/" name Hn). }
  now rewrite H.
Qed.

(** ** Value typing, both loaders *)

(** X15: edge value typing on plain numeric text.  For a cell of ASCII
    characters no longer than 4300, the edge loader's conversion returns
    a value: nothing for an empty cell, the integer read from an
    all-digit text, a float for digits with one dot, and the text itself
    in every other case. *)
Theorem edge_typing_of_ascii_text value :
  ascii_text value = true ->
  String.length value <= 4300 ->
  exists v,
    edge_typed_value value = Ret v
    /\ match v with
       | PyNone => value = EmptyString
       | PyInt z =>
           PyStr.isdigit value = true
           /\ z = Z.of_N (PyStr.digits_value 0 value)
       | PyFloatV _ =>
           PyStr.isdigit value = false
           /\ PyStr.isdigit (PyStr.replace_n "." "" 1 value) = true
       | PyString s => s = value /\ value <> EmptyString
       end.
Proof.
  intros _ _.
  unfold edge_typed_value. destruct value as [| c s]; [now exists PyNone |].
  cbn [PyStr.truthy]. set (value := String c s).
  destruct (edge_convert_total value) as [v Hv]. exists v.
  split; [exact Hv |]. unfold edge_convert in Hv.
  destruct (PyStr.isdigit value) eqn:Hd.
  - rewrite (py_int_digits _ Hd) in Hv. simpl in Hv. inversion Hv. now split.
  - destruct (PyStr.isdigit (PyStr.replace_n "." "" 1 value)) eqn:Hf.
    + destruct (py_float value); simpl in Hv; [| discriminate].
      inversion Hv. now split.
    + inversion Hv. split; [reflexivity | discriminate].
Qed.

Lemma replace_dot_head value :
  PyStr.startswith "-" value = false ->
  PyStr.startswith ".-" value = false ->
  PyStr.lstrip_char "-" (PyStr.replace_n "." "" 1 value)
  = PyStr.replace_n "." "" 1 value.
Proof.
  unfold PyStr.startswith, PyStr.replace_n.
  destruct value as [| c s]; [reflexivity |]. intros H1 H2.
  rewrite prefix_char in H1.
  cbn [PyStr.replace_go]. rewrite prefix_dot.
  destruct (Ascii.eqb c ".") eqn:Hdot; cbn [andb].
  - cbn [String.length pred append]. rewrite replace_exhausted.
    apply Ascii.eqb_eq in Hdot. subst c.
    destruct s as [| d s']; [reflexivity |].
    cbn [prefix] in H2. destruct (ascii_dec "." "."); [| contradiction].
    change (prefix "-" (String d s') = false) in H2.
    rewrite prefix_char in H2. cbn [PyStr.lstrip_char]. now rewrite H2.
  - cbn [PyStr.lstrip_char]. now rewrite H1.
Qed.

(** X16: the two loaders type alike away from the minus sign.  On every
    cell text that starts neither with [-] nor with [.-] the node
    loader's conversion ends exactly as the edge loader's does, with the
    same value or the same exception; on such a text of ASCII characters
    no longer than 4300 it returns a value. *)
Theorem typing_agrees_without_leading_minus value :
  PyStr.startswith "-" value = false ->
  PyStr.startswith ".-" value = false ->
  node_typed_value value = edge_typed_value value
  /\ (ascii_text value = true -> String.length value <= 4300 ->
      exists v, node_typed_value value = Ret v).
Proof.
  intros H1 H2.
  assert (E : node_typed_value value = edge_typed_value value).
  { unfold node_typed_value, edge_typed_value, node_convert, edge_convert.
    now rewrite (replace_dot_head value H1 H2). }
  split; [exact E |]. intros _ _. rewrite E. unfold edge_typed_value.
  destruct (PyStr.truthy value); [apply edge_convert_total | now exists PyNone].
Qed.

(** ** Property dictionaries *)

Lemma dict_set_here k v d : In (k, v) (dict_set k v d).
Proof.
  induction d as [| [k0 v0] d IH]; simpl; [now left |].
  destruct (String.eqb k0 k); [now left | now right].
Qed.

Lemma dict_set_other k v k' v' d :
  k <> k' -> In (k, v) d -> In (k, v) (dict_set k' v' d).
Proof.
  intros Hne. induction d as [| [k0 v0] d IH]; simpl; [tauto |].
  intros [E | H].
  - inversion E; subst. destruct (String.eqb k k') eqn:Hk.
    + apply String.eqb_eq in Hk. contradiction.
    + now left.
  - destruct (String.eqb k0 k'); right; auto.
Qed.

Lemma dict_set_keys k v d :
  map fst (dict_set k v d)
  = if existsb (String.eqb k) (map fst d) then map fst d else map fst d ++ [k].
Proof.
  induction d as [| [k0 v0] d IH]; simpl; [reflexivity |].
  rewrite (String.eqb_sym k k0). destruct (String.eqb k0 k) eqn:E; simpl.
  - apply String.eqb_eq in E. now subst.
  - rewrite IH. now destruct (existsb _ _).
Qed.

Lemma dict_set_nodup k v d :
  NoDup (map fst d) -> NoDup (map fst (dict_set k v d)).
Proof.
  intro H. rewrite dict_set_keys.
  destruct (existsb (String.eqb k) (map fst d)) eqn:E; [exact H |].
  apply NoDup_app; [exact H | repeat constructor; simpl; tauto |].
  intros x Hx [Ek | []]. subst x.
  assert (existsb (String.eqb k) (map fst d) = true); [| congruence].
  apply existsb_exists. exists k. split; [exact Hx | apply String.eqb_refl].
Qed.

Lemma dict_set_fresh k v d :
  ~ In k (map fst d) -> dict_set k v d = d ++ [(k, v)].
Proof.
  induction d as [| [k0 v0] d IH]; simpl; intro H; [reflexivity |].
  destruct (String.eqb k0 k) eqn:E.
  - apply String.eqb_eq in E. tauto.
  - rewrite IH; tauto.
Qed.

Lemma row_get_in (row : Row) k value :
  NoDup (map fst row) -> In (k, value) row -> row_get row k "" = value.
Proof.
  induction row as [| [k0 v0] row IH]; simpl; [tauto |].
  intros Hnd [E | H]; inversion Hnd; subst.
  - inversion E; subst. now rewrite String.eqb_refl.
  - destruct (String.eqb k0 k) eqn:Ek; [| auto].
    apply String.eqb_eq in Ek. subst k0. exfalso.
    apply H2. apply (in_map fst) in H. exact H.
Qed.

Lemma row_get_found (row : Row) k :
  row_get row k "" <> EmptyString -> In (k, row_get row k "") row.
Proof.
  induction row as [| [k0 v0] row IH]; simpl; [tauto |].
  destruct (String.eqb k0 k) eqn:Ek.
  - apply String.eqb_eq in Ek. subst. now left.
  - intro H. right. auto.
Qed.

Lemma node_properties_complete row :
  NoDup (map fst row) ->
  forall acc props,
    node_properties row acc = Ret props ->
    (forall k v, In (k, v) acc -> ~ In k (map fst row) -> In (k, v) props)
    /\ (forall k value,
           In (k, value) row -> key_in k ["id"; "labels"]%string = false ->
           value <> EmptyString ->
           exists v, node_convert value = Ret v /\ In (k, v) props).
Proof.
  induction row as [| [key value] rest IH]; intros Hnd acc props H;
    cbn [node_properties] in H.
  - inversion H; subst. split; [auto | intros k value []].
  - inversion Hnd as [| x l Hnotin Hnd']; subst. simpl in Hnotin.
    destruct (key_in key ["id"; "labels"]%string) eqn:Hres; simpl in H.
    + destruct (IH Hnd' _ _ H) as [Hacc Hrow]. split.
      * intros k v Hin Hk. apply Hacc; auto. simpl in Hk. tauto.
      * intros k value' [E | Hin] Hk Hne; [| eauto].
        inversion E; subst. congruence.
    + destruct (PyStr.truthy value) eqn:Ht; simpl in H.
      * destruct (node_convert value) as [v0 | e] eqn:Hconv; simpl in H;
          [| discriminate].
        destruct (IH Hnd' _ _ H) as [Hacc Hrow]. split.
        -- intros k v Hin Hk. simpl in Hk. apply Hacc; [| tauto].
           apply dict_set_other; [| exact Hin]. intro E. subst. tauto.
        -- intros k value' [E | Hin] Hk Hne; [| eauto].
           inversion E; subst. exists v0. split; [exact Hconv |].
           apply Hacc; [apply dict_set_here | exact Hnotin].
      * destruct (IH Hnd' _ _ H) as [Hacc Hrow]. split.
        -- intros k v Hin Hk. apply Hacc; auto. simpl in Hk. tauto.
        -- intros k value' [E | Hin] Hk Hne; [| eauto].
           inversion E; subst. destruct value'; [tauto | discriminate].
Qed.

(** X17: the bound node payload, exactly.  For a row with distinct field
    names, the [props] of its bulk record hold an entry [k: v] exactly
    when [k] is a field other than [id] and [labels] whose cell is not
    empty and [v] is the conversion of that cell: no structural key, no
    empty cell, nothing else, and nothing missing. *)
Theorem node_payload_exact row rec :
  NoDup (map fst row) ->
  node_record row = Ret rec ->
  forall k v,
    In (k, v) (nr_props rec) <->
    key_in k ["id"; "labels"]%string = false
    /\ row_get row k "" <> EmptyString
    /\ node_convert (row_get row k "") = Ret v.
Proof.
  intros Hnd Hrec k v. unfold node_record in Hrec.
  destruct (node_properties row []) as [props |] eqn:Hp; simpl in Hrec;
    [| discriminate].
  destruct (id_value (row_get row "id" "")); simpl in Hrec; [| discriminate].
  inversion Hrec; subst; simpl. split.
  - intro Hin.
    destruct (node_properties_entries row [] props Hp k v Hin)
      as [[] | (Hk & value & Hv & Hne & Hc)].
    rewrite (row_get_in row k value Hnd Hv). auto.
  - intros (Hk & Hne & Hc).
    destruct (node_properties_complete row Hnd [] props Hp) as [_ Hrow].
    destruct (Hrow k (row_get row k "") (row_get_found row k Hne) Hk Hne)
      as (v' & Hc' & Hin).
    congruence.
Qed.

Lemma edge_properties_nodup row :
  forall acc props,
    NoDup (map fst acc) -> edge_properties row acc = Ret props ->
    NoDup (map fst props).
Proof.
  induction row as [| [key value] rest IH]; intros acc props Hnd H;
    cbn [edge_properties] in H.
  - now inversion H; subst.
  - destruct (negb (key_in key edge_reserved) && PyStr.truthy value).
    + destruct (edge_convert value) as [v |]; simpl in H; [| discriminate].
      eapply IH; [| exact H]. now apply dict_set_nodup.
    + eapply IH; eauto.
Qed.

(** X18: the bound edge payload.  Whenever an edge row yields a bulk
    record, the record's [props] have pairwise distinct keys, and every
    entry comes from a non-empty cell of a column outside the reserved
    list, stored under the column's cleaned name with the cell's
    conversion. *)
Theorem edge_payload_from_cells row rec :
  edge_record row = Ret (Some rec) ->
  NoDup (map fst (er_props rec))
  /\ forall k v, In (k, v) (er_props rec) ->
       exists key value,
         In (key, value) row /\ k = clean_key key
         /\ key_in key edge_reserved = false /\ value <> EmptyString
         /\ edge_convert value = Ret v.
Proof.
  unfold edge_record. intro H.
  destruct (edge_row_dropped row); [discriminate |].
  destruct (edge_properties row []) as [props |] eqn:Hp; simpl in H;
    [| discriminate].
  destruct (id_value (row_get row "source" "")); simpl in H; [| discriminate].
  destruct (id_value (row_get row "target" "")); simpl in H; [| discriminate].
  inversion H; subst; simpl. split.
  - apply (edge_properties_nodup row [] props); [constructor | exact Hp].
  - intros k v Hin.
    destruct (edge_properties_entries row [] props Hp k v Hin) as [[] | H'].
    exact H'.
Qed.

Lemma filter_not_none_keys d k :
  ~ In k (map fst d) -> ~ In k (map fst (filter not_none d)).
Proof.
  intros H Hin. apply H. apply in_map_iff in Hin.
  destruct Hin as ([k' v] & E & Hf). apply filter_In in Hf.
  apply in_map_iff. exists (k', v). tauto.
Qed.

Lemma node_properties_of_all row :
  NoDup (map fst row) ->
  forall acc,
    (forall k, In k (map fst row) -> ~ In k (map fst acc)) ->
    node_properties row (filter not_none acc)
    = obind (node_properties_all row acc)
            (fun all => Ret (filter not_none all)).
Proof.
  induction row as [| [key value] rest IH]; intros Hnd acc Hfresh;
    cbn [node_properties node_properties_all]; [reflexivity |].
  inversion Hnd as [| x l Hnotin Hnd']; subst. simpl in Hnotin.
  assert (Hkey : ~ In key (map fst acc)) by (apply Hfresh; now left).
  assert (Hrest : forall v k, In k (map fst rest) ->
                              ~ In k (map fst (acc ++ [(key, v)]))).
  { intros v k Hk Hin. rewrite map_app in Hin. apply in_app_or in Hin.
    destruct Hin as [Hin | [E | []]].
    - apply (Hfresh k); [now right | exact Hin].
    - simpl in E. subst. contradiction. }
  destruct (key_in key ["id"; "labels"]%string); cbn [negb andb].
  - apply IH; auto. intros k Hk. apply Hfresh. now right.
  - unfold node_typed_value. destruct (PyStr.truthy value); cbn [obind].
    + destruct (node_convert value) as [v | e] eqn:Hc; cbn [obind];
        [| reflexivity].
      rewrite (dict_set_fresh key v acc Hkey).
      rewrite (dict_set_fresh key v (filter not_none acc))
        by now apply filter_not_none_keys.
      rewrite <- (IH Hnd' (acc ++ [(key, v)]) (Hrest v)).
      rewrite filter_app. cbn [filter not_none snd].
      destruct v; try reflexivity.
      exfalso. exact (node_convert_not_none value Hc).
    + rewrite (dict_set_fresh key PyNone acc Hkey).
      rewrite <- (IH Hnd' (acc ++ [(key, PyNone)]) (Hrest PyNone)).
      rewrite filter_app. cbn [filter not_none snd]. now rewrite app_nil_r.
Qed.

Lemma node_prop_parts_not_none py_repr properties :
  node_prop_parts py_repr properties
  = map (fun kv => (fst kv ++ ": " ++ py_repr (snd kv))%string)
        (filter not_none properties).
Proof.
  unfold node_prop_parts.
  induction properties as [| [k v] d IH]; [reflexivity |].
  cbn [flat_map filter not_none snd fst].
  destruct v; cbn [app map fst snd]; now rewrite IH.
Qed.

(** X19: the fallback query of a node row writes what its bulk record
    binds.  For a row with distinct field names the properties of the
    bulk record are the properties computed for the fallback query
    without their [None] entries, in the same order, and the two
    computations raise together; the property text of the fallback
    query lists exactly those entries. *)
Theorem node_fallback_matches_bulk py_repr row :
  NoDup (map fst row) ->
  node_properties row []
  = obind (node_properties_all row []) (fun all => Ret (filter not_none all))
  /\ forall all,
      node_properties_all row [] = Ret all ->
      node_properties row [] = Ret (filter not_none all)
      /\ node_prop_parts py_repr all
         = map (fun kv => (fst kv ++ ": " ++ py_repr (snd kv))%string)
               (filter not_none all).
Proof.
  intro Hnd.
  assert (H : node_properties row []
              = obind (node_properties_all row [])
                      (fun all => Ret (filter not_none all))).
  { apply (node_properties_of_all row Hnd []). intros k _ []. }
  split; [exact H |]. intros all Hall. split.
  - now rewrite H, Hall.
  - apply node_prop_parts_not_none.
Qed.

(** ** The theorems above on concrete inputs *)

Ltac distinct_names :=
  repeat constructor; simpl; intuition discriminate.

(** Multi-graph mode on a directory without tenants: the node file is
    never loaded. *)
Lemma no_handle_no_graph_query_witness :
  graph (self Scenario.multi_start) = None
  /\ exists seg,
      issued (snd (_load_single_graph_csvs Scenario.accepting Cases.flat_fs
                     Scenario.plain_repr 5000 Scenario.multi_start))
      = issued Scenario.multi_start ++ seg
      /\ forall e, In e seg ->
           ev_origin e = ConstraintCreate
           /\ exists args, ev_request e = ExecCommand args.
Proof.
  split; [reflexivity |].
  apply (no_handle_no_graph_query Scenario.accepting Cases.flat_fs
           Scenario.plain_repr 5000 Scenario.multi_start).
  reflexivity.
Defined.

(** Two tenants, found and run in sorted order. *)
Lemma tenants_run_in_turn_witness :
  fs_listdir Scenario.tenant_fs (csv_dir (self Scenario.multi_start))
  = Some ["tenant_a"; "tenant_b"]%string
  /\ _load_multi_graph_csvs Scenario.refusing Scenario.tenant_fs
       Scenario.plain_repr 5000 Scenario.multi_start
     = (Ret tt,
        fold_left (tenant_step Scenario.refusing Scenario.tenant_fs
                     Scenario.plain_repr 5000)
                  ["tenant_a"; "tenant_b"]%string Scenario.multi_start).
Proof.
  split; [reflexivity |].
  apply (tenants_run_in_turn Scenario.refusing Scenario.tenant_fs
           Scenario.plain_repr 5000 Scenario.multi_start
           ["tenant_a"; "tenant_b"]%string eq_refl).
  vm_compute. discriminate.
Defined.

Lemma batches_partition_rows_witness :
  (0 < 2)%Z
  /\ exists batches,
      batches_of [Scenario.alice; Scenario.nameless; Scenario.overdrawn] 2
      = Ret batches
      /\ concat batches = [Scenario.alice; Scenario.nameless; Scenario.overdrawn]
      /\ Forall (fun b => b <> [] /\ (Z.of_nat (length b) <= 2)%Z) batches.
Proof.
  split; [reflexivity |].
  apply (batches_partition_rows
           [Scenario.alice; Scenario.nameless; Scenario.overdrawn] 2).
  reflexivity.
Defined.

Lemma non_positive_batch_size_witness :
  fs_rows Cases.flat_fs "root/nodes_Person.csv" = Some [Scenario.alice]
  /\ (-1 <= 0)%Z
  /\ load_nodes_batch Scenario.accepting Cases.flat_fs Scenario.plain_repr
       "root/nodes_Person.csv" (-1) Scenario.single_start
     = (Ret tt, Scenario.single_start)
  /\ load_nodes_batch Scenario.accepting Cases.flat_fs Scenario.plain_repr
       "root/nodes_Person.csv" 0 Scenario.single_start
     = (Raise ValueError, Scenario.single_start).
Proof.
  split; [reflexivity |]. split; [discriminate |]. split.
  - apply (proj1 (non_positive_batch_size Scenario.accepting Cases.flat_fs
                    Scenario.plain_repr "root/nodes_Person.csv"%string (-1)
                    Scenario.single_start Scenario.alice [] eq_refl
                    ltac:(discriminate))).
  - apply (proj1 (non_positive_batch_size Scenario.accepting Cases.flat_fs
                    Scenario.plain_repr "root/nodes_Person.csv"%string 0
                    Scenario.single_start Scenario.alice [] eq_refl
                    ltac:(discriminate))).
Defined.

Lemma descriptor_indexes_sent_witness :
  graph (self Scenario.single_start) = Some "g"%string
  /\ fst (create_indexes_from_csv Scenario.refusing Cases.schema_fs
            Scenario.single_start) = Ret tt
  /\ snd (create_indexes_from_csv Scenario.refusing Cases.schema_fs
            Scenario.single_start)
     = after Scenario.single_start
         [event DescriptorIndex
            (GraphQuery "g" "CREATE INDEX ON :Person(name)" NoParams);
          event DescriptorIndex
            (GraphQuery "g" "CREATE INDEX ON :Person(age)" NoParams);
          event DescriptorIndex
            (GraphQuery "g" "CREATE INDEX ON :Company(name)" NoParams);
          event DescriptorIndex
            (GraphQuery "g" "CREATE INDEX ON :Company(age)" NoParams)]%string.
Proof.
  split; [reflexivity |]. split; [reflexivity |].
  apply (descriptor_indexes_sent Scenario.refusing Cases.schema_fs
           Scenario.single_start "g"%string eq_refl eq_refl).
Defined.

Lemma constraints_and_supporting_indexes_witness :
  graph (self Scenario.single_start) = Some "g"%string
  /\ fs_exists Cases.schema_fs "root/constraints.csv" = true
  /\ fst (create_supporting_indexes_for_constraints Scenario.refusing
            Cases.schema_fs Scenario.single_start) = Ret tt
  /\ fst (create_constraints_from_csv Scenario.refusing Cases.schema_fs
            Scenario.single_start) = Ret tt
  /\ snd (create_supporting_indexes_for_constraints Scenario.refusing
            Cases.schema_fs Scenario.single_start)
     = after Scenario.single_start
         [event SupportingIndex
            (GraphQuery "g" "CREATE INDEX FOR (n:Person) ON (n.id)" NoParams)]
  /\ snd (create_constraints_from_csv Scenario.refusing Cases.schema_fs
            Scenario.single_start)
     = after Scenario.single_start
         [event ConstraintCreate
            (ExecCommand
               ["GRAPH.CONSTRAINT"; "CREATE"; "g"; "UNIQUE"; "NODE"; "Person";
                "PROPERTIES"; "1"; "id"]%string)].
Proof.
  split; [reflexivity |]. split; [reflexivity |].
  split; [reflexivity |]. split; [reflexivity |].
  apply (constraints_and_supporting_indexes Scenario.refusing Cases.schema_fs
           Scenario.single_start "g"%string eq_refl eq_refl eq_refl eq_refl).
Defined.

Lemma basename_of_joined_path_witness :
  PyStr.contains "/" "nodes_Person.csv" = false
  /\ basename (path_join "csv_output/tenant_a" "nodes_Person.csv")
     = "nodes_Person.csv"%string.
Proof.
  split; [reflexivity |].
  apply (proj1 (basename_of_joined_path "csv_output/tenant_a"%string
                  "nodes_Person.csv"%string eq_refl)).
Defined.

Lemma edge_typing_of_ascii_text_witness :
  ascii_text "0.5" = true
  /\ String.length "0.5" <= 4300
  /\ exists v, edge_typed_value "0.5" = Ret v.
Proof.
  assert (Ha : ascii_text "0.5" = true) by reflexivity.
  assert (Hl : String.length "0.5" <= 4300) by (simpl; lia).
  split; [exact Ha |]. split; [exact Hl |].
  destruct (edge_typing_of_ascii_text "0.5"%string Ha Hl) as (v & Hv & _).
  now exists v.
Defined.

Lemma typing_agrees_without_leading_minus_witness :
  PyStr.startswith "-" "1.5" = false
  /\ PyStr.startswith ".-" "1.5" = false
  /\ node_typed_value "1.5" = edge_typed_value "1.5".
Proof.
  split; [reflexivity |]. split; [reflexivity |].
  apply (proj1 (typing_agrees_without_leading_minus "1.5"%string
                  eq_refl eq_refl)).
Defined.

Lemma node_payload_exact_witness :
  NoDup (map fst Scenario.alice)
  /\ In ("age"%string, PyInt 30)
        [("name", PyString "Alice"); ("age", PyInt 30)]%string.
Proof.
  assert (Hnd : NoDup (map fst Scenario.alice)) by distinct_names.
  split; [exact Hnd |].
  apply (proj2 (node_payload_exact Scenario.alice
                  {| nr_id := PyInt 1;
                     nr_props := [("name", PyString "Alice");
                                  ("age", PyInt 30)]%string |}
                  Hnd eq_refl "age"%string (PyInt 30))).
  split; [reflexivity |]. split; [discriminate | reflexivity].
Defined.

Lemma edge_payload_from_cells_witness :
  exists rec,
    edge_record Scenario.knows = Ret (Some rec)
    /\ NoDup (map fst (er_props rec)).
Proof.
  eexists. split; [reflexivity |].
  apply (proj1 (edge_payload_from_cells Scenario.knows _ eq_refl)).
Defined.

Lemma node_fallback_matches_bulk_witness :
  NoDup (map fst Scenario.nameless)
  /\ node_properties Scenario.nameless []
     = obind (node_properties_all Scenario.nameless [])
             (fun all => Ret (filter not_none all)).
Proof.
  assert (Hnd : NoDup (map fst Scenario.nameless)) by distinct_names.
  split; [exact Hnd |].
  apply (proj1 (node_fallback_matches_bulk Scenario.plain_repr
                  Scenario.nameless Hnd)).
Defined.

(** ** Whole runs *)



(** X20: single-graph mode writes to one graph.  A loader built for
    graph [name] in single-graph mode sends every request of
    [load_all_csvs] (index queries, constraint commands, node and edge
    writes, bulk or fallback) to the graph [name], for every directory
    content and every behaviour of the store. *)
Theorem single_mode_targets_one_graph store fs py_repr batch_size
        name dir merge :
  Forall (fun e => request_target (ev_request e) = Some name)
         (issued (snd (load_all_csvs store fs py_repr batch_size
                         {| self := init_loader name dir merge false;
                            issued := [] |}))).
Proof.
  apply Forall_forall. intro e.
  set (st := {| self := init_loader name dir merge false; issued := [] |}).
  unfold load_all_csvs, bind, get_self. simpl.
  destruct (fs_exists fs dir); simpl; [| tauto].
  destruct (routes_single_graph store fs py_repr batch_size st)
    as (_ & seg & Hseg & Hall).
  fold st. rewrite Hseg. simpl. intro He.
  rewrite Forall_forall in Hall. specialize (Hall e He).
  unfold well_routed in Hall. destruct (ev_request e) as [g q p | args]; simpl.
  - simpl in Hall. now inversion Hall.
  - exact (proj1 Hall).
Qed.




(** ** Records follow rows *)

Lemma node_batch_data_rows batch data :
  node_batch_data batch = Ret data ->
  Forall2 (fun row r => node_record row = Ret r) batch data.
Proof.
  revert data. induction batch as [| row batch IH]; intros data H; simpl in H.
  - inversion H. constructor.
  - destruct (node_record row) as [r | e] eqn:Hr; simpl in H; [| discriminate].
    destruct (node_batch_data batch) as [rs | e]; simpl in H; [| discriminate].
    inversion H; subst. constructor; auto.
Qed.

Lemma edge_record_none row :
  edge_record row = Ret None <-> edge_row_dropped row = true.
Proof.
  unfold edge_record. destruct (edge_row_dropped row); split; auto;
    [| discriminate].
  intro H. destruct (edge_properties row []); simpl in H; [| discriminate].
  destruct (id_value _); simpl in H; [| discriminate].
  destruct (id_value _); simpl in H; discriminate.
Qed.

Lemma edge_batch_data_rows batch data :
  edge_batch_data batch = Ret data ->
  Forall2 (fun row r => edge_record row = Ret (Some r))
          (filter (fun row => negb (edge_row_dropped row)) batch) data.
Proof.
  revert data. induction batch as [| row batch IH]; intros data H; simpl in H.
  - inversion H. constructor.
  - destruct (edge_record row) as [[r |] | e] eqn:Hrow;
      simpl in H; try discriminate;
      destruct (edge_batch_data batch) as [rs | e];
      simpl in H; try discriminate; inversion H; subst; simpl.
    + destruct (edge_row_dropped row) eqn:Hd.
      * apply edge_record_none in Hd. congruence.
      * simpl. constructor; auto.
    + apply edge_record_none in Hrow. rewrite Hrow. simpl. auto.
Qed.

(** X22: bulk records follow the rows.  Whenever the bulk payload of a
    batch is built, it holds, for a node batch, one record per row in
    row order, and for an edge batch one record per row that has both a
    source and a target, in row order. *)
Theorem batch_data_follows_rows batch :
  (forall data,
      node_batch_data batch = Ret data ->
      Forall2 (fun row r => node_record row = Ret r) batch data)
  /\ (forall data,
         edge_batch_data batch = Ret data ->
         Forall2 (fun row r => edge_record row = Ret (Some r))
                 (filter (fun row => negb (edge_row_dropped row)) batch) data).
Proof.
  split; intros data H;
    [now apply node_batch_data_rows | now apply edge_batch_data_rows].
Qed.

Lemma batch_data_follows_rows_witness :
  Forall2 (fun row r => node_record row = Ret r)
          [Scenario.alice; Scenario.nameless]
          [{| nr_id := PyInt 1;
              nr_props := [("name", PyString "Alice"); ("age", PyInt 30)]%string |};
           {| nr_id := PyString "";
              nr_props := [("name", PyString "Bob")]%string |}]
  /\ exists data,
      edge_batch_data [Scenario.knows; Scenario.dangling] = Ret data
      /\ Forall2 (fun row r => edge_record row = Ret (Some r))
                 [Scenario.knows] data.
Proof.
  split.
  - apply (proj1 (batch_data_follows_rows [Scenario.alice; Scenario.nameless])).
    reflexivity.
  - eexists. split; [reflexivity |].
    apply (proj2 (batch_data_follows_rows [Scenario.knows; Scenario.dangling])
             _ eq_refl).
Defined.

Lemma endpoint_label_first_segment_witness :
  PyStr.truthy "OS:Process" = true
  /\ label_first "OS:Process" = first_segment ":" "OS:Process"
  /\ PyStr.contains ":" (label_first "OS:Process") = false.
Proof.
  split; [reflexivity |].
  destruct (endpoint_label_first_segment "OS:Process"%string) as [Hno Heq].
  split; [exact (Heq eq_refl) | exact Hno].
Defined.
